(** * Note codec of mcp-server-apple-events: [src/utils/notesFormatter.ts]

    A shallow embedding of the note formatter ([formatNotes], [parseNotes],
    [mergeNotes], [addLink], [removeLink], [setCritical], [clearCritical])
    and the properties of its text format.

    JavaScript strings are sequences of UTF-16 code units; a code unit is a
    number [N], a string a [list N].  Optional object properties are
    [option]s: a property holding [undefined] and a missing property are the
    same [None] (the code never tells them apart). *)

From Stdlib Require Import List NArith Bool Ascii String Lia.
Import ListNotations.

Local Open Scope N_scope.
Local Open Scope list_scope.

(** ** JavaScript strings *)

Module JS.

Definition jsstring := list N.

(** Code units of an ASCII literal of the source. *)
Definition lit (s : string) : jsstring :=
  map N_of_ascii (list_ascii_of_string s).

Definition nl : N := 10.
Definition comma : N := 44.
Definition space : N := 32.

Fixpoint streq (a b : jsstring) : bool :=
  match a, b with
  | [], [] => true
  | x :: a', y :: b' => (x =? y) && streq a' b'
  | _, _ => false
  end.

(** A string is truthy when it is not empty. *)
Definition truthy (s : jsstring) : bool :=
  match s with [] => false | _ :: _ => true end.

(** ECMAScript WhiteSpace and LineTerminator code points, the ones
    [String.prototype.trim] strips. *)
Definition isWhiteSpace (c : N) : bool :=
  ((9 <=? c) && (c <=? 13)) || (c =? 32) || (c =? 160) || (c =? 5760)
  || ((8192 <=? c) && (c <=? 8202)) || (c =? 8232) || (c =? 8233)
  || (c =? 8239) || (c =? 8287) || (c =? 12288) || (c =? 65279).

Fixpoint trimStart (s : jsstring) : jsstring :=
  match s with
  | [] => []
  | c :: r => if isWhiteSpace c then trimStart r else s
  end.

Definition trimEnd (s : jsstring) : jsstring := rev (trimStart (rev s)).

Definition trim (s : jsstring) : jsstring := trimEnd (trimStart s).

(** [s.split(sep)] for a separator of one code unit. *)
Fixpoint split (sep : N) (s : jsstring) : list jsstring :=
  match s with
  | [] => [[]]
  | c :: r =>
      if c =? sep then [] :: split sep r
      else match split sep r with
           | [] => [[c]]
           | l :: ls => (c :: l) :: ls
           end
  end.

(** [parts.join(sep)] *)
Fixpoint join (sep : jsstring) (parts : list jsstring) : jsstring :=
  match parts with
  | [] => []
  | [p] => p
  | p :: ps => p ++ sep ++ join sep ps
  end.

(** [[...new Set(l)]]: the elements of [l] in the order they were first
    inserted. *)
Definition setAdd (acc : list jsstring) (x : jsstring) : list jsstring :=
  if existsb (streq x) acc then acc else acc ++ [x].

Definition setOf (l : list jsstring) : list jsstring :=
  fold_left setAdd l [].

End JS.

Import JS.

(** ** The data model *)

Record NoteComponents := mkNote {
  content : option jsstring;
  critical : option jsstring;
  links : option (list jsstring)
}.

Definition emptyNote : NoteComponents := mkNote None None None.

Definition CRITICAL : jsstring := lit "Critical:".
Definition RELATED : jsstring := lit "Related:".

(** ** formatNotes *)

Definition contentPart (c : NoteComponents) : list jsstring :=
  match content c with
  | Some s => if truthy s then [s] else []
  | None => []
  end.

Definition criticalPart (c : NoteComponents) : list jsstring :=
  match critical c with
  | Some k => if truthy k then [CRITICAL ++ nl :: k] else []
  | None => []
  end.

Definition linksPart (c : NoteComponents) : list jsstring :=
  match links c with
  | Some ((_ :: _) as l) => [RELATED ++ nl :: join [comma; space] l]
  | _ => []
  end.

Definition formatNotes (c : NoteComponents) : jsstring :=
  let parts := contentPart c ++ criticalPart c ++ linksPart c in
  trim (join [nl; nl] parts).

(** ** parseNotes *)

Inductive Section_ := SContent | SCritical | SRelated.

Record ParseState := mkState {
  components : NoteComponents;
  contentLines : list jsstring;
  currentSection : Section_
}.

Definition initState : ParseState := mkState emptyNote [] SContent.

Definition setSection (st : ParseState) (s : Section_) : ParseState :=
  mkState (components st) (contentLines st) s.

(** [trimmed.split(',').map((id) => id.trim()).filter(Boolean)] *)
Definition parseLinks (trimmed : jsstring) : list jsstring :=
  filter truthy (map trim (split comma trimmed)).

(** One iteration of the loop over the lines. *)
Definition step (st : ParseState) (line : jsstring) : ParseState :=
  let trimmed := trim line in
  if streq trimmed CRITICAL then setSection st SCritical
  else if streq trimmed RELATED then setSection st SRelated
  else if negb (truthy trimmed) then st
  else
    let c := components st in
    match currentSection st with
    | SCritical =>
        mkState (mkNote (content c) (Some trimmed) (links c))
                (contentLines st) SContent
    | SRelated =>
        mkState (mkNote (content c) (critical c) (Some (parseLinks trimmed)))
                (contentLines st) SContent
    | SContent =>
        mkState c (contentLines st ++ [trimmed]) SContent
    end.

Definition loop (st : ParseState) (lines : list jsstring) : ParseState :=
  fold_left step lines st.

(** The code after the loop. *)
Definition finish (st : ParseState) : NoteComponents :=
  let c := components st in
  match contentLines st with
  | [] => c
  | _ :: _ => mkNote (Some (join [nl] (contentLines st))) (critical c) (links c)
  end.

Definition parseLines (lines : list jsstring) : NoteComponents :=
  finish (loop initState lines).

Definition parseNotes (notes : option jsstring) : NoteComponents :=
  match notes with
  | None => emptyNote
  | Some [] => emptyNote
  | Some s => parseLines (split nl s)
  end.

(** ** mergeNotes *)

Definition orNil (l : option (list jsstring)) : list jsstring :=
  match l with Some x => x | None => [] end.

(** [a ?? b] *)
Definition nullish {A} (a b : option A) : option A :=
  match a with Some _ => a | None => b end.

Definition mergeNotes (existing updates : NoteComponents) : NoteComponents :=
  let mcontent :=
    match updates.(content), existing.(content) with
    | Some u, Some e =>
        if truthy u && truthy e then Some (e ++ [nl; nl] ++ u)
        else nullish updates.(content) existing.(content)
    | _, _ => nullish updates.(content) existing.(content)
    end in
  let mcritical := nullish updates.(critical) existing.(critical) in
  let allLinks := orNil existing.(links) ++ orNil updates.(links) in
  let mlinks :=
    match allLinks with
    | [] => None
    | _ :: _ => Some (setOf allLinks)
    end in
  mkNote mcontent mcritical mlinks.

(** ** The point mutators *)

Definition addLink (notes : option jsstring) (linkId : jsstring) : jsstring :=
  let c := parseNotes notes in
  formatNotes
    (mkNote (content c) (critical c) (Some (setOf (orNil (links c) ++ [linkId])))).

Definition setCritical (notes : option jsstring) (k : jsstring) : jsstring :=
  let c := parseNotes notes in
  formatNotes (mkNote (content c) (Some k) (links c)).

Definition clearCritical (notes : option jsstring) : jsstring :=
  let c := parseNotes notes in
  formatNotes (mkNote (content c) None (links c)).

(** [components.links?.filter((id) => id !== linkId)], then the property is
    deleted when the filtered array is empty. *)
Definition removeLink (notes : option jsstring) (linkId : jsstring) : jsstring :=
  let c := parseNotes notes in
  let filtered :=
    match links c with
    | Some l => Some (filter (fun id => negb (streq id linkId)) l)
    | None => None
    end in
  let links' :=
    match filtered with
    | Some [] => None
    | other => other
    end in
  formatNotes (mkNote (content c) (critical c) links').

Notation "a +nl+ b" := (a ++ nl :: b) (at level 61, left associativity).

(** * Vocabulary of the properties *)

(** The first code unit, if any, is not white space. *)
Definition headOk (s : jsstring) : bool :=
  match s with [] => true | c :: _ => negb (isWhiteSpace c) end.

(** Neither end is white space: the fixed points of [trim]. *)
Definition trimmed (s : jsstring) : bool := headOk s && headOk (rev s).


Definition mem (x : jsstring) (l : list jsstring) : bool := existsb (streq x) l.

(** The merge of the links as the specification words it: the entries in
    first-seen order without repetition, the existing ones first, then the
    entries of the update that are not among the existing ones. *)
Fixpoint firstSeen (seen l : list jsstring) : list jsstring :=
  match l with
  | [] => []
  | x :: r => if mem x seen then firstSeen seen r else x :: firstSeen (x :: seen) r
  end.

Definition dedup (l : list jsstring) : list jsstring := firstSeen [] l.

Definition specLinkUnion (existing updates : list jsstring) : list jsstring :=
  dedup existing ++ dedup (filter (fun x => negb (mem x existing)) updates).

(** The content of a merge as the specification words it, where a field
    that is set counts as present whatever its value. *)
Definition specMergeContent (existing updates : option jsstring) : option jsstring :=
  match existing, updates with
  | Some e, Some u => Some (e ++ [nl; nl] ++ u)
  | Some e, None => Some e
  | None, Some u => Some u
  | None, None => None
  end.

(** The invariant of the data model on the links. *)
Definition linksInvariant (c : NoteComponents) : Prop := links c <> Some [].

Definition isHeader (l : jsstring) : bool := streq l CRITICAL || streq l RELATED.

(** A line that the loop skips: nothing is left of it after trimming. *)
Definition isBlank (l : jsstring) : bool := negb (truthy (trim l)).

Definition noChar (c : N) (s : jsstring) : bool := negb (existsb (N.eqb c) s).

(** A line as [parseNotes] stores it: not empty, equal to its own trim,
    on one line, and not a section header. *)
Definition cleanLine (l : jsstring) : bool :=
  truthy l && streq (trim l) l && noChar nl l && negb (isHeader l).

(** A link id as [parseNotes] stores it: not empty, equal to its own trim,
    without newline and without comma. *)
Definition cleanToken (t : jsstring) : bool :=
  truthy t && streq (trim t) t && noChar nl t && noChar comma t.

Definition optb {A} (p : A -> bool) (o : option A) : bool :=
  match o with Some x => p x | None => true end.

(** The shape of every record that [parseNotes] returns. *)
Definition parsedOk (c : NoteComponents) : bool :=
  optb (fun s => forallb cleanLine (split nl s)) (content c)
  && optb cleanLine (critical c)
  && optb (forallb cleanToken) (links c).

(** The invariant of the loop of [parseNotes]. *)
Definition stateOk (st : ParseState) : bool :=
  match content (components st) with None => true | Some _ => false end
  && optb cleanLine (critical (components st))
  && optb (forallb cleanToken) (links (components st))
  && forallb cleanLine (contentLines st).

(** The lines of a text that the loop of [parseNotes] does not skip. *)
Definition nbLines (s : jsstring) : list jsstring :=
  filter (fun l => negb (isBlank l)) (split nl s).

Definition nonEmpty {A} (l : list A) : bool :=
  match l with [] => false | _ :: _ => true end.

(** A record whose fields, when set, have the shape [parseNotes] gives
    them, and whose links, when set, are not the empty list. *)
Definition wfNote (c : NoteComponents) : bool :=
  optb (fun s => forallb cleanLine (split nl s)) (content c)
  && optb cleanLine (critical c)
  && optb (fun l => nonEmpty l && forallb cleanToken l) (links c).

(** What a well-formed record reads back as: the same record, except that
    a link list whose encoded line is itself a header token is lost. *)
Definition readBack (c : NoteComponents) : NoteComponents :=
  mkNote (content c) (critical c)
         (match links c with
          | Some l => if isHeader (join [comma; space] l) then None else Some l
          | None => None
          end).

(** Not empty, with no white space at either end. *)
Definition trimmedNE (s : jsstring) : Prop := s <> [] /\ trimmed s = true.

(** No line of the text is a [Critical:] or [Related:] header. *)
Definition noHeaderLines (s : jsstring) : bool :=
  forallb (fun l => negb (isHeader (trim l))) (split nl s).

(** The records of the round-trip property as the specification words it:
    every field that is set is not empty and holds no header line. *)
Definition statedRoundTrip (c : NoteComponents) : bool :=
  optb (fun s => truthy s && noHeaderLines s) (content c)
  && optb (fun k => truthy k && noHeaderLines k) (critical c)
  && optb (fun l => nonEmpty l && forallb (fun t => truthy t && noHeaderLines t) l)
          (links c).

(** The records that do read back as themselves: the content is made of
    clean lines, the critical text is one clean line, and the links are a
    non-empty list of clean ids none of which is a header token. *)
Definition roundTrips (c : NoteComponents) : bool :=
  wfNote c && optb (forallb (fun t => negb (isHeader t))) (links c).

(** The record without the fields that [formatNotes] passes over: an empty
    content, an empty critical text, an empty link list. *)
Definition normalize (c : NoteComponents) : NoteComponents :=
  mkNote (match content c with Some s => if truthy s then Some s else None | None => None end)
         (match critical c with Some k => if truthy k then Some k else None | None => None end)
         (match links c with Some ((_ :: _) as l) => Some l | _ => None end).

(** The links left after removing [id] from those parsed from [text]. *)
Definition linksWithout (text : option jsstring) (id : jsstring) : list jsstring :=
  filter (fun x => negb (streq x id)) (orNil (links (parseNotes text))).

(** A link list as a field: absent when the list is empty. *)
Definition someIfAny (l : list jsstring) : option (list jsstring) :=
  match l with [] => None | _ :: _ => Some l end.
(** * Vocabulary of the further properties *)

(** The content field built from the buffered lines: absent when there is
    none, else the lines joined by newlines. *)
Definition joinLines (ls : list jsstring) : option jsstring :=
  match ls with [] => None | _ :: _ => Some (join [nl] ls) end.

(** Nothing but white space. *)
Definition allWhite (s : jsstring) : bool := forallb isWhiteSpace s.

(** ** [src/utils/errorHandling.ts] *)

Module ErrorHandling.

(** What the [catch] clause looks at in the thrown value: whether it is an
    [Error], whether it is a [ValidationError], and its [message]. *)
Record Thrown := mkThrown {
  instanceOfError : bool;
  instanceOfValidationError : bool;
  message : jsstring
}.

(** The two variables read from [process.env]. *)
Record Env := mkEnv {
  NODE_ENV : option jsstring;
  DEBUG : option jsstring
}.

(** [process.env.NODE_ENV === 'development' || process.env.DEBUG], as a
    condition. *)
Definition isDev (env : Env) : bool :=
  match NODE_ENV env with Some v => streq v (lit "development") | None => false end
  || match DEBUG env with Some v => truthy v | None => false end.

Definition SYSTEM_ERROR : jsstring := lit "System error occurred".

Definition createErrorMessage (env : Env) (operation : jsstring) (error : Thrown)
  : jsstring :=
  let msg := if instanceOfError error then message error else SYSTEM_ERROR in
  if instanceOfValidationError error then msg
  else if isDev env then lit "Failed to " ++ operation ++ lit ": " ++ msg
  else lit "Failed to " ++ operation ++ lit ": System error occurred".

(** [{ content: [{ type: 'text', text }], isError }] *)
Record CallToolResult := mkResult {
  text : jsstring;
  isError : bool
}.

(** The awaited operation either gives its string or throws. *)
Definition handleAsyncOperation (env : Env) (outcome : jsstring + Thrown)
  (operationName : jsstring) : CallToolResult :=
  match outcome with
  | inl result => mkResult result false
  | inr error => mkResult (createErrorMessage env operationName error) true
  end.

End ErrorHandling.

(** * The scenarios of [notesFormatter.test.ts], evaluated on the model *)

Module Scenarios.

Definition par (a b : jsstring) : jsstring := a +nl+ [] +nl+ b.

Example format_all_components :
  formatNotes (mkNote (Some (lit "Check security issues"))
                      (Some (lit "Blocking release"))
                      (Some [lit "ABC123"; lit "DEF456"]))
  = par (lit "Check security issues")
        (par (lit "Critical:" +nl+ lit "Blocking release")
             (lit "Related:" +nl+ lit "ABC123, DEF456")).
Proof. reflexivity. Qed.

Example format_critical_only :
  formatNotes (mkNote None (Some (lit "Urgent task")) None)
  = lit "Critical:" +nl+ lit "Urgent task".
Proof. reflexivity. Qed.

Example format_empty : formatNotes emptyNote = [].
Proof. reflexivity. Qed.

Example parse_all_components :
  parseNotes (Some (par (lit "Main content here")
                        (par (lit "Critical:" +nl+ lit "Blocking issue")
                             (lit "Related:" +nl+ lit "ABC, DEF"))))
  = mkNote (Some (lit "Main content here")) (Some (lit "Blocking issue"))
           (Some [lit "ABC"; lit "DEF"]).
Proof. reflexivity. Qed.

Example parse_multiline_content :
  parseNotes (Some (lit "Line 1" +nl+ lit "Line 2" +nl+ lit "Line 3"))
  = mkNote (Some (lit "Line 1" +nl+ lit "Line 2" +nl+ lit "Line 3")) None None.
Proof. reflexivity. Qed.

Example parse_undefined_and_empty :
  parseNotes None = emptyNote /\ parseNotes (Some []) = emptyNote.
Proof. split; reflexivity. Qed.

Example parse_links_with_spaces :
  links (parseNotes (Some (lit "Related:" +nl+ lit "ABC , DEF , GHI")))
  = Some [lit "ABC"; lit "DEF"; lit "GHI"].
Proof. reflexivity. Qed.

Example parse_content_after_critical :
  parseNotes (Some (par (lit "Critical:" +nl+ lit "Urgent") (lit "Some content after")))
  = mkNote (Some (lit "Some content after")) (Some (lit "Urgent")) None.
Proof. reflexivity. Qed.

Example merge_critical_override :
  critical (mergeNotes (mkNote None (Some (lit "Old")) None)
                       (mkNote None (Some (lit "New")) None))
  = Some (lit "New").
Proof. reflexivity. Qed.

Example merge_content_append :
  content (mergeNotes (mkNote (Some (lit "First part")) None None)
                      (mkNote (Some (lit "Second part")) None None))
  = Some (par (lit "First part") (lit "Second part")).
Proof. reflexivity. Qed.

Example merge_links_dedup :
  links (mergeNotes (mkNote None None (Some [lit "A"; lit "B"]))
                    (mkNote None None (Some [lit "B"; lit "C"])))
  = Some [lit "A"; lit "B"; lit "C"].
Proof. reflexivity. Qed.

Example addLink_empty :
  addLink None (lit "ABC123") = lit "Related:" +nl+ lit "ABC123".
Proof. reflexivity. Qed.

Example addLink_existing_links :
  addLink (Some (lit "Related:" +nl+ lit "DEF456")) (lit "ABC123")
  = lit "Related:" +nl+ lit "DEF456, ABC123".
Proof. reflexivity. Qed.

Example addLink_no_duplicate :
  addLink (Some (lit "Related:" +nl+ lit "ABC123")) (lit "ABC123")
  = lit "Related:" +nl+ lit "ABC123".
Proof. reflexivity. Qed.

Example setCritical_override :
  setCritical (Some (par (lit "Critical:" +nl+ lit "Old") (lit "Content"))) (lit "New")
  = par (lit "Content") (lit "Critical:" +nl+ lit "New").
Proof. reflexivity. Qed.

Example clearCritical_removes :
  clearCritical (Some (par (lit "Content") (lit "Critical:" +nl+ lit "Remove this")))
  = lit "Content".
Proof. reflexivity. Qed.

Example removeLink_specific :
  removeLink (Some (lit "Related:" +nl+ lit "ABC, DEF, GHI")) (lit "DEF")
  = lit "Related:" +nl+ lit "ABC, GHI".
Proof. reflexivity. Qed.

Example removeLink_missing :
  removeLink (Some (lit "Related:" +nl+ lit "ABC")) (lit "XYZ")
  = lit "Related:" +nl+ lit "ABC".
Proof. reflexivity. Qed.

End Scenarios.

(** * Properties of the string operations *)

Section StringFacts.

Lemma streq_spec (a b : jsstring) : streq a b = true <-> a = b.
Proof.
  revert b; induction a as [|x a IH]; intros [|y b]; simpl; split;
    try congruence; try discriminate; auto.
  - intros H. apply andb_true_iff in H as [Hx Hr].
    apply N.eqb_eq in Hx. apply IH in Hr. congruence.
  - intros H. injection H as -> ->. rewrite N.eqb_refl. simpl.
    apply IH. reflexivity.
Qed.

Lemma streq_refl (a : jsstring) : streq a a = true.
Proof. apply streq_spec. reflexivity. Qed.

Lemma streq_neq (a b : jsstring) : a <> b -> streq a b = false.
Proof.
  intros H. destruct (streq a b) eqn:E; auto.
  apply streq_spec in E. contradiction.
Qed.

Lemma truthy_true (s : jsstring) : truthy s = true <-> s <> [].
Proof. destruct s; simpl; split; congruence. Qed.

(** *** trim *)

Lemma trimStart_suffix (s : jsstring) : exists w, s = w ++ trimStart s.
Proof.
  induction s as [|c r [w Hw]]; simpl.
  - exists []. reflexivity.
  - destruct (isWhiteSpace c).
    + exists (c :: w). simpl. congruence.
    + exists []. reflexivity.
Qed.

Lemma trimStart_headOk (s : jsstring) : headOk (trimStart s) = true.
Proof.
  induction s as [|c r IH]; simpl; auto.
  destruct (isWhiteSpace c) eqn:E; auto. simpl. rewrite E. reflexivity.
Qed.

Lemma trimStart_fix (s : jsstring) : headOk s = true -> trimStart s = s.
Proof.
  destruct s as [|c r]; simpl; auto.
  destruct (isWhiteSpace c); simpl; congruence.
Qed.

Lemma trimEnd_prefix (s : jsstring) : exists w, s = trimEnd s ++ w.
Proof.
  unfold trimEnd. destruct (trimStart_suffix (rev s)) as [w Hw].
  exists (rev w). rewrite <- rev_app_distr, <- Hw, rev_involutive. reflexivity.
Qed.

Lemma headOk_prefix (a w : jsstring) : headOk (a ++ w) = true -> headOk a = true.
Proof. destruct a; simpl; auto. Qed.

Lemma headOk_app (a w : jsstring) : a <> [] -> headOk (a ++ w) = headOk a.
Proof. destruct a; simpl; congruence. Qed.

Lemma trimmed_trim (s : jsstring) : trimmed (trim s) = true.
Proof.
  unfold trimmed, trim. apply andb_true_iff. split.
  - destruct (trimEnd_prefix (trimStart s)) as [w Hw].
    apply headOk_prefix with w. rewrite <- Hw. apply trimStart_headOk.
  - unfold trimEnd. rewrite rev_involutive. apply trimStart_headOk.
Qed.

Lemma trim_fix (s : jsstring) : trimmed s = true -> trim s = s.
Proof.
  unfold trimmed, trim, trimEnd. intros H.
  apply andb_true_iff in H as [H1 H2].
  rewrite (trimStart_fix s H1), (trimStart_fix (rev s) H2).
  apply rev_involutive.
Qed.

Lemma trim_fix_iff (s : jsstring) : trim s = s <-> trimmed s = true.
Proof.
  split; [|apply trim_fix]. intros H. rewrite <- H. apply trimmed_trim.
Qed.

Lemma trim_idem (s : jsstring) : trim (trim s) = trim s.
Proof. apply trim_fix, trimmed_trim. Qed.

Lemma trim_nil : trim [] = [].
Proof. reflexivity. Qed.

Lemma trim_ws (c : N) (s : jsstring) :
  isWhiteSpace c = true -> trim (c :: s) = trim s.
Proof. unfold trim. simpl. intros ->. reflexivity. Qed.

Lemma trimStart_incl (s : jsstring) (c : N) : In c (trimStart s) -> In c s.
Proof.
  destruct (trimStart_suffix s) as [w Hw]. intros H.
  rewrite Hw. apply in_or_app. auto.
Qed.

Lemma trim_incl (s : jsstring) (c : N) : In c (trim s) -> In c s.
Proof.
  unfold trim, trimEnd. intros H. apply in_rev in H.
  apply trimStart_incl in H. apply in_rev in H.
  apply trimStart_incl in H. exact H.
Qed.

Lemma trimmed_app (a m b : jsstring) :
  a <> [] -> b <> [] -> trimmed a = true -> trimmed b = true ->
  trimmed (a ++ m ++ b) = true.
Proof.
  unfold trimmed. intros Ha Hb H1 H2.
  apply andb_true_iff in H1 as [H1 _]. apply andb_true_iff in H2 as [_ H2].
  rewrite headOk_app by assumption. rewrite H1. simpl.
  rewrite !rev_app_distr, <- app_assoc. rewrite headOk_app; auto.
  intros E. apply (f_equal (@rev N)) in E. rewrite rev_involutive in E.
  simpl in E. contradiction.
Qed.

(** *** split and join *)

Lemma split_ne (sep : N) (s : jsstring) : split sep s <> [].
Proof.
  destruct s as [|c r]; simpl; [discriminate|].
  destruct (c =? sep); [discriminate|].
  destruct (split sep r); discriminate.
Qed.

Lemma split_app_sep (sep : N) (a b : jsstring) :
  split sep (a ++ sep :: b) = split sep a ++ split sep b.
Proof.
  induction a as [|c r IH]; simpl.
  - rewrite N.eqb_refl. reflexivity.
  - destruct (c =? sep); [rewrite IH; reflexivity|].
    rewrite IH. pose proof (split_ne sep r).
    destruct (split sep r); [contradiction|reflexivity].
Qed.

Lemma split_nosep (sep : N) (s : jsstring) : ~ In sep s -> split sep s = [s].
Proof.
  induction s as [|c r IH]; simpl; auto. intros H.
  destruct (N.eqb_spec c sep) as [->|_]; [exfalso; auto|].
  rewrite IH by auto. reflexivity.
Qed.

Lemma split_lines_nosep (sep : N) (s : jsstring) :
  Forall (fun l => ~ In sep l) (split sep s).
Proof.
  induction s as [|c r IH]; simpl.
  - constructor; auto.
  - destruct (N.eqb_spec c sep) as [->|Hn].
    + constructor; auto.
    + destruct (split sep r) as [|l ls]; constructor.
      * simpl. intuition congruence.
      * constructor.
      * inversion IH; subst. simpl. intuition congruence.
      * inversion IH; subst. assumption.
Qed.

Lemma join_split (sep : N) (s : jsstring) : join [sep] (split sep s) = s.
Proof.
  induction s as [|c r IH]; simpl; auto.
  destruct (N.eqb_spec c sep) as [->|Hn].
  - pose proof (split_ne sep r).
    destruct (split sep r) eqn:E; [contradiction|].
    simpl in *. rewrite IH. reflexivity.
  - destruct (split sep r) as [|l [|l' ls]] eqn:E; simpl in *; congruence.
Qed.

Lemma join_cons (sep p : jsstring) (ps : list jsstring) :
  ps <> [] -> join sep (p :: ps) = p ++ sep ++ join sep ps.
Proof. destruct ps; simpl; congruence. Qed.

Lemma split_join (sep : N) (ls : list jsstring) :
  ls <> [] -> Forall (fun l => ~ In sep l) ls ->
  split sep (join [sep] ls) = ls.
Proof.
  induction ls as [|l ls IH]; [congruence|]. intros _ H.
  inversion H as [|? ? Hl Hls]; subst.
  destruct ls as [|l' ls'].
  - simpl. apply split_nosep. assumption.
  - rewrite join_cons by discriminate. cbn [app].
    rewrite split_app_sep, split_nosep by assumption.
    rewrite IH by (assumption || discriminate). reflexivity.
Qed.

End StringFacts.

(** * mergeNotes *)

Section Merge.

Lemma mem_In (x : jsstring) (l : list jsstring) : mem x l = true <-> In x l.
Proof.
  unfold mem. rewrite existsb_exists. split.
  - intros [y [Hy E]]. apply streq_spec in E. congruence.
  - intros H. exists x. split; [assumption|apply streq_refl].
Qed.

Lemma mem_ext (s1 s2 : list jsstring) (x : jsstring) :
  (forall y, In y s1 <-> In y s2) -> mem x s1 = mem x s2.
Proof.
  intros H. destruct (mem x s1) eqn:E1, (mem x s2) eqn:E2; auto.
  - apply mem_In, H, mem_In in E1. congruence.
  - apply mem_In, H, mem_In in E2. congruence.
Qed.

Lemma firstSeen_ext (l s1 s2 : list jsstring) :
  (forall y, In y s1 <-> In y s2) -> firstSeen s1 l = firstSeen s2 l.
Proof.
  revert s1 s2. induction l as [|x r IH]; intros s1 s2 H; simpl; auto.
  rewrite (mem_ext s1 s2 x H). destruct (mem x s2).
  - apply IH, H.
  - f_equal. apply IH. intros y. simpl. rewrite H. reflexivity.
Qed.

(** The insertion loop of [Set] appends to the accumulator the entries not
    seen before. *)
Lemma fold_setAdd (l acc : list jsstring) :
  fold_left setAdd l acc = acc ++ firstSeen acc l.
Proof.
  revert acc. induction l as [|x r IH]; intros acc; simpl.
  - symmetry. apply app_nil_r.
  - rewrite IH. unfold setAdd. fold (mem x acc). destruct (mem x acc); auto.
    rewrite <- app_assoc. simpl. do 2 f_equal.
    apply firstSeen_ext. intros y. rewrite in_app_iff. simpl. tauto.
Qed.

Lemma setOf_dedup (l : list jsstring) : setOf l = dedup l.
Proof. unfold setOf. rewrite fold_setAdd. reflexivity. Qed.

Lemma firstSeen_app (a b s : list jsstring) :
  firstSeen s (a ++ b) = firstSeen s a ++ firstSeen (rev a ++ s) b.
Proof.
  revert s. induction a as [|x r IH]; intros s; simpl; auto.
  destruct (mem x s) eqn:E.
  - rewrite IH. f_equal. apply firstSeen_ext. intros y.
    rewrite !in_app_iff. simpl. apply mem_In in E.
    split; [tauto|]. intros [[H|[->|[]]]|H]; auto.
  - simpl. f_equal. rewrite IH. f_equal. rewrite <- app_assoc. reflexivity.
Qed.

Lemma firstSeen_filter (s1 s2 l : list jsstring) :
  firstSeen (s1 ++ s2) l = firstSeen s2 (filter (fun x => negb (mem x s1)) l).
Proof.
  revert s2. induction l as [|x r IH]; intros s2; simpl; auto.
  destruct (mem x s1) eqn:E1; simpl.
  - assert (mem x (s1 ++ s2) = true) as ->.
    { apply mem_In, in_or_app. left. apply mem_In. assumption. }
    apply IH.
  - assert (mem x (s1 ++ s2) = mem x s2) as ->.
    { unfold mem in *. rewrite existsb_app, E1. reflexivity. }
    destruct (mem x s2); [apply IH|]. f_equal. rewrite <- IH.
    apply firstSeen_ext. intros y. simpl. rewrite !in_app_iff. simpl. tauto.
Qed.

Lemma setOf_app (e u : list jsstring) : setOf (e ++ u) = specLinkUnion e u.
Proof.
  rewrite setOf_dedup. unfold specLinkUnion, dedup.
  rewrite firstSeen_app. f_equal.
  rewrite <- (firstSeen_filter e []).
  apply firstSeen_ext. intros y. rewrite !in_app_iff, <- in_rev. tauto.
Qed.

Lemma firstSeen_In (l s : list jsstring) (x : jsstring) :
  In x (firstSeen s l) <-> In x l /\ ~ In x s.
Proof.
  revert s. induction l as [|y r IH]; intros s; simpl; [tauto|].
  destruct (mem y s) eqn:E.
  - rewrite IH. apply mem_In in E. split; [tauto|].
    intros [[->|H] Hn]; tauto.
  - simpl. rewrite IH. simpl.
    assert (~ In y s) by (rewrite <- mem_In; congruence).
    destruct (list_eq_dec N.eq_dec y x) as [->|Hne]; [tauto|]. tauto.
Qed.

Lemma firstSeen_NoDup (l s : list jsstring) : NoDup (firstSeen s l).
Proof.
  revert s. induction l as [|y r IH]; intros s; simpl; [constructor|].
  destruct (mem y s); [apply IH|]. constructor; [|apply IH].
  rewrite firstSeen_In. simpl. tauto.
Qed.

Lemma setOf_nil_iff (l : list jsstring) : setOf l = [] <-> l = [].
Proof.
  rewrite setOf_dedup. unfold dedup. destruct l; simpl; split; congruence.
Qed.

Lemma mergeNotes_linksInvariant (e u : NoteComponents) :
  linksInvariant (mergeNotes e u).
Proof.
  unfold linksInvariant, mergeNotes. simpl.
  destruct (orNil (links e) ++ orNil (links u)) eqn:E; [discriminate|].
  intros H. injection H as H. apply (proj1 (setOf_nil_iff _)) in H. discriminate.
Qed.

End Merge.

(** C4: the links of a merge are the entries of [existing.links] without
    repetition followed by the entries of [updates.links] that are not
    among them, each side in its own order, and the field is absent when
    that union is empty. The union has no repetition and holds exactly
    the entries of the two sides. *)
Theorem C4_merge_links (existing updates : NoteComponents) :
  let e := orNil (links existing) in
  let u := orNil (links updates) in
  links (mergeNotes existing updates)
  = match specLinkUnion e u with [] => None | l => Some l end
  /\ NoDup (specLinkUnion e u)
  /\ (forall x, In x (specLinkUnion e u) <-> In x e \/ In x u).
Proof.
  intros e u. split; [|split].
  - unfold mergeNotes. simpl. fold e u. rewrite <- setOf_app.
    destruct (e ++ u) eqn:E; [reflexivity|].
    destruct (setOf (j :: l)) eqn:E'; [|reflexivity].
    apply (proj1 (setOf_nil_iff _)) in E'. discriminate.
  - rewrite <- setOf_app, setOf_dedup. apply firstSeen_NoDup.
  - intros x. rewrite <- setOf_app, setOf_dedup. unfold dedup.
    rewrite firstSeen_In, in_app_iff. simpl. tauto.
Qed.

(** C5 as the claim words it fails: an empty string is a set field, and
    merging the existing content [""] with the update ["x"] gives ["x"],
    not the two joined by a blank line. *)
Lemma C5_counterexample :
  content (mergeNotes (mkNote (Some []) None None) (mkNote (Some (lit "x")) None None))
  <> specMergeContent (Some []) (Some (lit "x")).
Proof. vm_compute. discriminate. Qed.

(** C5, amended: the content of a merge is [existing.content], a blank
    line, then [updates.content] when both are set and not empty;
    otherwise it is [updates.content] when that is set (the empty string
    included), else [existing.content], absent when neither is set. *)
Theorem C5_merge_content (existing updates : NoteComponents) :
  content (mergeNotes existing updates)
  = match content existing, content updates with
    | Some e, Some u =>
        if truthy e && truthy u then Some (e ++ [nl; nl] ++ u) else Some u
    | Some e, None => Some e
    | None, Some u => Some u
    | None, None => None
    end.
Proof.
  unfold mergeNotes. simpl.
  destruct (content existing) as [e|], (content updates) as [u|]; simpl; auto.
  rewrite andb_comm. reflexivity.
Qed.

(** C3: on the note whose [Related:] line holds only a comma, [parseNotes]
    returns a record whose links are present and empty. *)
Theorem C3_parse_empty_links :
  parseNotes (Some (RELATED +nl+ [comma])) = mkNote None None (Some [])
  /\ ~ linksInvariant (parseNotes (Some (RELATED +nl+ [comma]))).
Proof.
  split; [vm_compute; reflexivity|].
  unfold linksInvariant. intros H. apply H. vm_compute. reflexivity.
Qed.

(** * The loop of parseNotes *)

Section ParseLoop.

Lemma noChar_spec (c : N) (s : jsstring) : noChar c s = true <-> ~ In c s.
Proof.
  unfold noChar. rewrite negb_true_iff, <- not_true_iff_false, existsb_exists.
  split; intros H H'; apply H.
  - exists c. split; [assumption|apply N.eqb_refl].
  - destruct H' as [x [Hx E]]. apply N.eqb_eq in E. congruence.
Qed.

Lemma isHeader_spec (l : jsstring) :
  isHeader l = true <-> l = CRITICAL \/ l = RELATED.
Proof. unfold isHeader. rewrite orb_true_iff, !streq_spec. reflexivity. Qed.

Lemma cleanLine_spec (l : jsstring) :
  cleanLine l = true <->
  l <> [] /\ trim l = l /\ ~ In nl l /\ l <> CRITICAL /\ l <> RELATED.
Proof.
  unfold cleanLine.
  rewrite !andb_true_iff, truthy_true, streq_spec, noChar_spec, negb_true_iff.
  rewrite <- not_true_iff_false, isHeader_spec. tauto.
Qed.

Lemma cleanToken_spec (t : jsstring) :
  cleanToken t = true <->
  t <> [] /\ trim t = t /\ ~ In nl t /\ ~ In comma t.
Proof.
  unfold cleanToken.
  rewrite !andb_true_iff, truthy_true, streq_spec, !noChar_spec. tauto.
Qed.

Lemma loop_app (st : ParseState) (a b : list jsstring) :
  loop st (a ++ b) = loop (loop st a) b.
Proof. apply fold_left_app. Qed.

Lemma step_critical (st : ParseState) (line : jsstring) :
  trim line = CRITICAL -> step st line = setSection st SCritical.
Proof. unfold step. intros ->. reflexivity. Qed.

Lemma step_related (st : ParseState) (line : jsstring) :
  trim line = RELATED -> step st line = setSection st SRelated.
Proof. unfold step. intros ->. reflexivity. Qed.

Lemma step_blank (st : ParseState) (line : jsstring) :
  isBlank line = true -> step st line = st.
Proof.
  unfold isBlank, step. intros H.
  destruct (trim line); [reflexivity|discriminate].
Qed.

(** A line that is neither blank nor a header is captured by the section
    the loop is in. *)
Lemma step_capture (st : ParseState) (line : jsstring) :
  trim line <> [] -> trim line <> CRITICAL -> trim line <> RELATED ->
  step st line =
  let c := components st in
  match currentSection st with
  | SCritical =>
      mkState (mkNote (content c) (Some (trim line)) (links c))
              (contentLines st) SContent
  | SRelated =>
      mkState (mkNote (content c) (critical c) (Some (parseLinks (trim line))))
              (contentLines st) SContent
  | SContent => mkState c (contentLines st ++ [trim line]) SContent
  end.
Proof.
  intros H0 H1 H2. unfold step.
  rewrite (streq_neq _ _ H1), (streq_neq _ _ H2).
  apply truthy_true in H0. rewrite H0. reflexivity.
Qed.

Lemma step_cases (line : jsstring) :
  trim line = CRITICAL \/ trim line = RELATED \/ isBlank line = true
  \/ (trim line <> [] /\ trim line <> CRITICAL /\ trim line <> RELATED).
Proof.
  destruct (list_eq_dec N.eq_dec (trim line) CRITICAL); auto.
  destruct (list_eq_dec N.eq_dec (trim line) RELATED); auto.
  unfold isBlank. destruct (trim line) eqn:E; auto.
  right. right. right. repeat split; auto. discriminate.
Qed.

Lemma step_trim (st : ParseState) (line : jsstring) :
  step st (trim line) = step st line.
Proof. unfold step. rewrite trim_idem. reflexivity. Qed.

Lemma split_incl (sep c : N) (s l : jsstring) :
  In l (split sep s) -> In c l -> In c s.
Proof.
  revert l. induction s as [|x r IH]; simpl; intros l.
  - intros [<-|[]] [].
  - destruct (x =? sep).
    + intros [<-|H] Hc; [destruct Hc|]. right. eapply IH; eauto.
    + pose proof (split_ne sep r). destruct (split sep r) as [|l0 ls]; [contradiction|].
      intros [<-|H'] Hc.
      * destruct Hc as [->|Hc]; auto. right. apply (IH l0); simpl; auto.
      * right. apply (IH l); simpl; auto.
Qed.

Lemma parseLinks_clean (t : jsstring) :
  ~ In nl t -> forallb cleanToken (parseLinks t) = true.
Proof.
  intros Hnl. apply forallb_forall. intros x Hx.
  unfold parseLinks in Hx. apply filter_In in Hx as [Hx Ht].
  apply in_map_iff in Hx as [p [<- Hp]].
  apply cleanToken_spec. repeat split.
  - apply truthy_true. assumption.
  - apply trim_idem.
  - intros H. apply trim_incl in H. apply Hnl. eapply split_incl; eauto.
  - intros H. apply trim_incl in H.
    pose proof (split_lines_nosep comma t) as F.
    rewrite Forall_forall in F. apply (F p Hp H).
Qed.

Lemma stateOk_step (st : ParseState) (line : jsstring) :
  ~ In nl line -> stateOk st = true -> stateOk (step st line) = true.
Proof.
  intros Hnl Hst.
  destruct (step_cases line) as [H|[H|[H|(H0 & H1 & H2)]]].
  - rewrite step_critical by assumption. exact Hst.
  - rewrite step_related by assumption. exact Hst.
  - rewrite step_blank by assumption. exact Hst.
  - rewrite step_capture by assumption.
    assert (Hc : cleanLine (trim line) = true).
    { apply cleanLine_spec. repeat split; auto using trim_idem.
      intros H. apply trim_incl in H. contradiction. }
    assert (Hn : ~ In nl (trim line)).
    { intros H. apply trim_incl in H. contradiction. }
    unfold stateOk in *. destruct st as [[co cr li] cl sec]. simpl in *.
    apply andb_true_iff in Hst as [Hst H4].
    apply andb_true_iff in Hst as [Hst H3].
    apply andb_true_iff in Hst as [Ha Hb].
    destruct sec; simpl.
    + rewrite Ha, Hb, H3. simpl. rewrite forallb_app, H4. simpl.
      rewrite Hc. reflexivity.
    + rewrite Ha, Hc, H3, H4. reflexivity.
    + rewrite Ha, Hb, H4, (parseLinks_clean _ Hn). reflexivity.
Qed.

Lemma stateOk_loop (lines : list jsstring) (st : ParseState) :
  Forall (fun l => ~ In nl l) lines -> stateOk st = true ->
  stateOk (loop st lines) = true.
Proof.
  revert st. induction lines as [|l ls IH]; intros st F H; simpl; auto.
  inversion F; subst. apply IH; auto using stateOk_step.
Qed.

Lemma cleanLines_split_join (ls : list jsstring) :
  ls <> [] -> forallb cleanLine ls = true -> split nl (join [nl] ls) = ls.
Proof.
  intros Hne H. apply split_join; auto.
  apply Forall_forall. intros l Hl.
  rewrite forallb_forall in H. apply H, cleanLine_spec in Hl. tauto.
Qed.

Lemma finish_parsedOk (st : ParseState) :
  stateOk st = true -> parsedOk (finish st) = true.
Proof.
  unfold stateOk, parsedOk, finish.
  destruct st as [[co cr li] cl sec]. simpl. intros H.
  apply andb_true_iff in H as [H H4].
  apply andb_true_iff in H as [H H3].
  apply andb_true_iff in H as [Ha Hb].
  destruct co; [discriminate|].
  destruct cl as [|l ls]; simpl.
  - rewrite Hb, H3. reflexivity.
  - rewrite Hb, H3.
    change (forallb cleanLine (split nl (join [nl] (l :: ls))) && true && true = true).
    rewrite cleanLines_split_join by (assumption || discriminate).
    rewrite H4. reflexivity.
Qed.

(** The guard on the empty string agrees with what the loop does there. *)
Lemma parseNotes_lines (s : jsstring) :
  parseNotes (Some s) = parseLines (split nl s).
Proof. destruct s; reflexivity. Qed.

Lemma parseNotes_parsedOk (notes : option jsstring) :
  parsedOk (parseNotes notes) = true.
Proof.
  destruct notes as [s|]; [|reflexivity].
  rewrite parseNotes_lines. apply finish_parsedOk, stateOk_loop.
  - apply split_lines_nosep.
  - reflexivity.
Qed.

End ParseLoop.

(** C9: every line of the content that [parseNotes] returns is not empty,
    equal to its own trim and not blank; the content is those lines joined
    by single newlines, so it has no indentation, no white space around a
    line and no blank line. *)
Theorem C9_content_lines (notes : option jsstring) (c : jsstring) :
  content (parseNotes notes) = Some c ->
  c = join [nl] (split nl c)
  /\ Forall (fun l => l <> [] /\ trim l = l /\ isBlank l = false) (split nl c).
Proof.
  intros H. split; [symmetry; apply join_split|].
  pose proof (parseNotes_parsedOk notes) as Hok.
  unfold parsedOk in Hok. rewrite H in Hok. simpl in Hok.
  apply andb_true_iff in Hok as [Hok _].
  apply andb_true_iff in Hok as [Hok _].
  apply Forall_forall. intros l Hl.
  rewrite forallb_forall in Hok. apply Hok, cleanLine_spec in Hl.
  destruct Hl as (Hne & Ht & _). repeat split; auto.
  unfold isBlank. rewrite Ht. destruct l; [congruence|reflexivity].
Qed.

Lemma C9_witness :
  let notes := Some (lit "  Buy milk  " +nl+ [] +nl+ lit "   and eggs") in
  let c := lit "Buy milk" +nl+ lit "and eggs" in
  content (parseNotes notes) = Some c
  /\ c = join [nl] (split nl c)
  /\ Forall (fun l => l <> [] /\ trim l = l /\ isBlank l = false) (split nl c).
Proof.
  split; [reflexivity|].
  apply (C9_content_lines
           (Some (lit "  Buy milk  " +nl+ [] +nl+ lit "   and eggs"))).
  reflexivity.
Defined.

(** C10: a line whose trim is a header token switches the section exactly
    as the token itself does, whatever white space surrounds it: the
    iteration gives the same state, which differs from the one before only
    in the section, and so the whole input parses alike. *)
Theorem C10_header_after_trim (line hdr : jsstring) (sec : Section_) :
  (hdr = CRITICAL /\ sec = SCritical) \/ (hdr = RELATED /\ sec = SRelated) ->
  trim line = hdr ->
  (forall st, step st line = step st hdr /\ step st line = setSection st sec)
  /\ (forall pre post,
        parseLines (pre ++ line :: post) = parseLines (pre ++ hdr :: post)).
Proof.
  intros Hh Ht.
  assert (E : forall st, step st line = step st hdr /\ step st line = setSection st sec).
  { intros st. rewrite <- (step_trim st line), Ht. split; [reflexivity|].
    destruct Hh as [[-> ->]|[-> ->]]; reflexivity. }
  split; [exact E|]. intros pre post. unfold parseLines.
  rewrite !loop_app. simpl. f_equal. f_equal. apply E.
Qed.

Lemma C10_witness :
  let line := lit "  Critical:  " in
  trim line = CRITICAL
  /\ (forall st, step st line = step st CRITICAL
                 /\ step st line = setSection st SCritical)
  /\ (forall pre post,
        parseLines (pre ++ line :: post) = parseLines (pre ++ CRITICAL :: post)).
Proof.
  split; [reflexivity|].
  apply (C10_header_after_trim (lit "  Critical:  ") CRITICAL SCritical).
  - left. split; reflexivity.
  - reflexivity.
Defined.

Example header_with_tab :
  trim (9 :: RELATED) = RELATED
  /\ parseNotes (Some ((9 :: RELATED) +nl+ lit "ABC , DEF"))
     = mkNote None None (Some [lit "ABC"; lit "DEF"]).
Proof. split; reflexivity. Qed.

Section DanglingHeader.

Lemma loop_blank (post : list jsstring) (st : ParseState) :
  forallb isBlank post = true -> loop st post = st.
Proof.
  induction post as [|l ls IH]; simpl; auto. intros H.
  apply andb_true_iff in H as [H1 H2].
  rewrite step_blank by assumption. apply IH. assumption.
Qed.

Lemma finish_setSection (st : ParseState) (sec : Section_) :
  finish (setSection st sec) = finish st.
Proof. reflexivity. Qed.

Lemma step_header (st : ParseState) (h : jsstring) :
  isHeader (trim h) = true -> exists sec, step st h = setSection st sec.
Proof.
  intros H. apply isHeader_spec in H as [H|H].
  - exists SCritical. apply step_critical. assumption.
  - exists SRelated. apply step_related. assumption.
Qed.

Lemma parse_dangling (s : jsstring) (pre post : list jsstring) (h : jsstring) :
  split nl s = pre ++ h :: post ->
  isHeader (trim h) = true ->
  forallb isBlank post = true ->
  parseNotes (Some s) = parseLines pre.
Proof.
  intros Hs Hh Hb. rewrite parseNotes_lines, Hs. unfold parseLines.
  rewrite loop_app. simpl.
  destruct (step_header (loop initState pre) h Hh) as [sec ->].
  fold (loop (setSection (loop initState pre) sec) post).
  rewrite loop_blank by assumption. apply finish_setSection.
Qed.

End DanglingHeader.

(** C6 as the claim words it fails: in ["Critical:\nx\nCritical:"] the last
    line is a header that nothing follows, and the critical field is
    present, captured after the first header. *)
Lemma C6_counterexample :
  let s := CRITICAL +nl+ lit "x" +nl+ CRITICAL in
  split nl s = [CRITICAL; lit "x"] ++ CRITICAL :: []
  /\ trim CRITICAL = CRITICAL
  /\ forallb isBlank [] = true
  /\ critical (parseNotes (Some s)) = Some (lit "x")
  /\ critical (parseNotes (Some s)) <> None.
Proof. repeat split; try reflexivity. vm_compute. discriminate. Qed.

(** C6, amended: a header line that only blank lines follow up to the end
    of the input captures nothing: the result is the record parsed from
    the lines before that header. The field of the header is thus absent
    whenever no line before the header was captured for it. *)
Theorem C6_dangling_header (s : jsstring) (pre post : list jsstring) (h : jsstring) :
  split nl s = pre ++ h :: post ->
  isHeader (trim h) = true ->
  forallb isBlank post = true ->
  parseNotes (Some s) = parseLines pre
  /\ (critical (parseLines pre) = None -> critical (parseNotes (Some s)) = None)
  /\ (links (parseLines pre) = None -> links (parseNotes (Some s)) = None).
Proof.
  intros Hs Hh Hb. rewrite (parse_dangling s pre post h Hs Hh Hb). auto.
Qed.

Lemma C6_witness :
  let s := lit "Call the bank" +nl+ lit " Related: " +nl+ lit "  " in
  let pre := [lit "Call the bank"] in
  (split nl s = pre ++ lit " Related: " :: [lit "  "]
   /\ isHeader (trim (lit " Related: ")) = true
   /\ forallb isBlank [lit "  "] = true)
  /\ parseNotes (Some s) = parseLines pre
  /\ (critical (parseLines pre) = None -> critical (parseNotes (Some s)) = None)
  /\ (links (parseLines pre) = None -> links (parseNotes (Some s)) = None).
Proof.
  split; [repeat split|].
  apply (C6_dangling_header
           (lit "Call the bank" +nl+ lit " Related: " +nl+ lit "  ")
           [lit "Call the bank"] [lit "  "] (lit " Related: "));
    reflexivity.
Defined.

(** * Reading back what formatNotes writes *)

Section ReadBack.

Lemma join_trimmed (sep : jsstring) (ls : list jsstring) :
  ls <> [] -> Forall trimmedNE ls -> trimmedNE (join sep ls).
Proof.
  induction ls as [|l ls IH]; [congruence|]. intros _ F.
  inversion F as [|? ? [Hne Ht] Hls]; subst.
  destruct ls as [|l' ls'].
  - simpl. split; assumption.
  - rewrite join_cons by discriminate.
    destruct IH as [Hne' Ht']; [discriminate|assumption|].
    split.
    + destruct l; [congruence|discriminate].
    + apply trimmed_app; assumption.
Qed.

Lemma cleanLine_trimmedNE (l : jsstring) : cleanLine l = true -> trimmedNE l.
Proof.
  intros H. apply cleanLine_spec in H as (Hne & Ht & _).
  split; [assumption|]. apply trim_fix_iff. assumption.
Qed.

Lemma cleanToken_trimmedNE (t : jsstring) : cleanToken t = true -> trimmedNE t.
Proof.
  intros H. apply cleanToken_spec in H as (Hne & Ht & _).
  split; [assumption|]. apply trim_fix_iff. assumption.
Qed.

Lemma cleanLine_not_blank (l : jsstring) :
  cleanLine l = true -> negb (isBlank l) = true.
Proof.
  intros H. apply cleanLine_spec in H as (Hne & Ht & _).
  unfold isBlank. rewrite Ht, negb_involutive. apply truthy_true. assumption.
Qed.

Lemma trimmedNE_not_blank (l : jsstring) : trimmedNE l -> negb (isBlank l) = true.
Proof.
  intros [Hne Ht]. unfold isBlank. rewrite (trim_fix l Ht), negb_involutive.
  apply truthy_true. assumption.
Qed.

Lemma filter_all {A} (p : A -> bool) (l : list A) :
  forallb p l = true -> filter p l = l.
Proof.
  induction l as [|x r IH]; simpl; auto. intros H.
  apply andb_true_iff in H as [-> H]. rewrite IH; auto.
Qed.

Lemma loop_skip_blank (lines : list jsstring) (st : ParseState) :
  loop st lines = loop st (filter (fun l => negb (isBlank l)) lines).
Proof.
  revert st. induction lines as [|l ls IH]; intros st; simpl; auto.
  destruct (isBlank l) eqn:E; simpl.
  - rewrite step_blank by assumption. apply IH.
  - apply IH.
Qed.

Lemma nbLines_join (parts : list jsstring) :
  nbLines (join [nl; nl] parts) = List.concat (map nbLines parts).
Proof.
  induction parts as [|p ps IH]; [reflexivity|].
  destruct ps as [|q ps'].
  - simpl. symmetry. apply app_nil_r.
  - rewrite join_cons by discriminate.
    change (List.concat (map nbLines (p :: q :: ps')))
      with (nbLines p ++ List.concat (map nbLines (q :: ps'))).
    rewrite <- IH. unfold nbLines.
    change (p ++ [nl; nl] ++ join [nl; nl] (q :: ps'))
      with (p ++ nl :: (nl :: join [nl; nl] (q :: ps'))).
    rewrite split_app_sep, filter_app. f_equal.
Qed.

Lemma parseNotes_nbLines (s : jsstring) :
  parseNotes (Some s) = finish (loop initState (nbLines s)).
Proof.
  rewrite parseNotes_lines. unfold parseLines, nbLines.
  rewrite <- loop_skip_blank. reflexivity.
Qed.

(** *** The three blocks *)

Lemma content_block (s : jsstring) :
  forallb cleanLine (split nl s) = true ->
  truthy s = true /\ trimmedNE s /\ nbLines s = split nl s.
Proof.
  intros H.
  assert (T : trimmedNE s).
  { rewrite <- (join_split nl s). apply join_trimmed; [apply split_ne|].
    apply Forall_forall. intros l Hl. apply cleanLine_trimmedNE.
    rewrite forallb_forall in H. auto. }
  split; [apply truthy_true, T|]. split; [exact T|].
  apply filter_all. apply forallb_forall. intros l Hl.
  apply cleanLine_not_blank. rewrite forallb_forall in H. auto.
Qed.

Lemma header_block (hdr l : jsstring) :
  hdr = CRITICAL \/ hdr = RELATED ->
  trimmedNE l -> ~ In nl l ->
  trimmedNE (hdr ++ nl :: l) /\ nbLines (hdr ++ nl :: l) = [hdr; l].
Proof.
  intros Hh [Hne Ht] Hnl. split.
  - split.
    + destruct Hh as [E|E]; rewrite E; discriminate.
    + apply (trimmed_app hdr [nl] l); auto;
        destruct Hh as [E|E]; rewrite E; (discriminate || reflexivity).
  - unfold nbLines. rewrite split_app_sep.
    rewrite (split_nosep nl l Hnl).
    assert (Hs : split nl hdr = [hdr]) by (destruct Hh as [E|E]; rewrite E; reflexivity).
    rewrite Hs. simpl. rewrite (trimmedNE_not_blank l (conj Hne Ht)).
    destruct Hh as [E|E]; rewrite E; reflexivity.
Qed.

Lemma join_noChar (c : N) (sep : jsstring) (ls : list jsstring) :
  ~ In c sep -> Forall (fun l => ~ In c l) ls -> ~ In c (join sep ls).
Proof.
  intros Hs. induction ls as [|l ls IH]; simpl; auto. intros F.
  inversion F; subst. destruct ls as [|l' ls']; auto.
  rewrite !in_app_iff. intros [H|[H|H]]; auto. apply IH; assumption.
Qed.

Lemma links_line (l : list jsstring) :
  l <> [] -> forallb cleanToken l = true ->
  trimmedNE (join [comma; space] l) /\ ~ In nl (join [comma; space] l).
Proof.
  intros Hne H. rewrite forallb_forall in H. split.
  - apply join_trimmed; auto. apply Forall_forall. intros t Ht.
    apply cleanToken_trimmedNE. auto.
  - apply join_noChar.
    + simpl. intros [E|[E|[]]]; discriminate.
    + apply Forall_forall. intros t Ht. apply H, cleanToken_spec in Ht. tauto.
Qed.

Lemma trim_space (s : jsstring) : trim (space :: s) = trim s.
Proof. apply trim_ws. reflexivity. Qed.

Lemma split_links (l : list jsstring) (pre : jsstring) :
  l <> [] -> forallb cleanToken l = true ->
  pre = [] \/ pre = [space] ->
  map trim (split comma (pre ++ join [comma; space] l)) = l.
Proof.
  revert pre. induction l as [|t l IH]; [congruence|]. intros pre _ H Hp.
  simpl in H. apply andb_true_iff in H as [Ht Hl].
  apply cleanToken_spec in Ht as (Hne & Htr & Hnl & Hc).
  assert (Hpre : ~ In comma (pre ++ t)).
  { rewrite in_app_iff. intros [E|E]; [|contradiction].
    destruct Hp as [-> | ->]; simpl in E; [contradiction|].
    destruct E as [E|[]]. discriminate. }
  assert (Htp : trim (pre ++ t) = t).
  { destruct Hp as [-> | ->]; simpl; [assumption|].
    rewrite trim_space. assumption. }
  destruct l as [|t' l'].
  - simpl. rewrite split_nosep by assumption. simpl. congruence.
  - rewrite join_cons by discriminate. cbn [app].
    rewrite app_assoc, split_app_sep, split_nosep by assumption.
    simpl map at 1. cbn [app map]. rewrite Htp. f_equal.
    apply (IH [space]); auto. discriminate.
Qed.

Lemma parseLinks_join (l : list jsstring) :
  l <> [] -> forallb cleanToken l = true ->
  parseLinks (join [comma; space] l) = l.
Proof.
  intros Hne H. unfold parseLinks.
  pose proof (split_links l [] Hne H (or_introl eq_refl)) as E.
  cbn [app] in E. rewrite E.
  apply filter_all. apply forallb_forall. intros t Ht.
  rewrite forallb_forall in H. apply H, cleanToken_spec in Ht.
  apply truthy_true. tauto.
Qed.

End ReadBack.

Section ReadBackMain.

Lemma loop_content (ls : list jsstring) (st : ParseState) :
  forallb cleanLine ls = true -> currentSection st = SContent ->
  loop st ls = mkState (components st) (contentLines st ++ ls) SContent.
Proof.
  revert st. induction ls as [|l ls IH]; intros st H Hs.
  - destruct st as [c cl sec]. simpl in *. rewrite app_nil_r. congruence.
  - simpl in H. apply andb_true_iff in H as [Hl H].
    apply cleanLine_spec in Hl as (Hne & Ht & _ & H1 & H2).
    simpl. rewrite step_capture by (rewrite Ht; assumption).
    rewrite Hs, Ht. cbn zeta. fold (loop (mkState (components st) (contentLines st ++ [l]) SContent) ls).
    rewrite IH by auto. simpl. rewrite <- app_assoc. reflexivity.
Qed.

Lemma loop_critical (k : jsstring) (st : ParseState) :
  cleanLine k = true -> currentSection st = SContent ->
  loop st [CRITICAL; k]
  = mkState (mkNote (content (components st)) (Some k) (links (components st)))
            (contentLines st) SContent.
Proof.
  intros Hk Hs. apply cleanLine_spec in Hk as (Hne & Ht & _ & H1 & H2).
  simpl. rewrite (step_critical st CRITICAL) by reflexivity.
  rewrite step_capture by (rewrite Ht; assumption).
  rewrite Ht. reflexivity.
Qed.

Lemma loop_related (l : list jsstring) (st : ParseState) :
  l <> [] -> forallb cleanToken l = true ->
  finish (loop st [RELATED; join [comma; space] l])
  = if isHeader (join [comma; space] l) then finish st
    else finish (mkState (mkNote (content (components st))
                                 (critical (components st)) (Some l))
                         (contentLines st) SContent).
Proof.
  intros Hne H. destruct (links_line l Hne H) as [[Hj Ht] Hnl].
  apply trim_fix in Ht. simpl.
  rewrite (step_related st RELATED) by reflexivity.
  destruct (isHeader (join [comma; space] l)) eqn:E.
  - destruct (step_header (setSection st SRelated) (join [comma; space] l))
      as [sec ->]; [rewrite Ht; assumption|]. reflexivity.
  - apply not_true_iff_false in E. rewrite isHeader_spec in E.
    rewrite step_capture by (rewrite Ht; tauto).
    rewrite Ht. simpl. rewrite parseLinks_join by assumption. reflexivity.
Qed.

Lemma wfNote_parts (c : NoteComponents) :
  wfNote c = true ->
  let parts := contentPart c ++ criticalPart c ++ linksPart c in
  Forall trimmedNE parts
  /\ List.concat (map nbLines parts)
     = match content c with Some s => split nl s | None => [] end
       ++ match critical c with Some k => [CRITICAL; k] | None => [] end
       ++ match links c with
          | Some l => [RELATED; join [comma; space] l]
          | None => []
          end.
Proof.
  unfold wfNote, contentPart, criticalPart, linksPart.
  destruct c as [co cr li]. cbn [content critical links]. intros H.
  apply andb_true_iff in H as [H H3]. apply andb_true_iff in H as [H1 H2].
  assert (A : Forall trimmedNE (match co with Some s => if truthy s then [s] else [] | None => [] end)
              /\ List.concat (map nbLines (match co with Some s => if truthy s then [s] else [] | None => [] end))
                 = match co with Some s => split nl s | None => [] end).
  { destruct co as [s|]; simpl in *; [|auto].
    destruct (content_block s H1) as (-> & T & E). simpl.
    rewrite E, app_nil_r. auto. }
  assert (B : Forall trimmedNE (match cr with Some k => if truthy k then [CRITICAL ++ nl :: k] else [] | None => [] end)
              /\ List.concat (map nbLines (match cr with Some k => if truthy k then [CRITICAL ++ nl :: k] else [] | None => [] end))
                 = match cr with Some k => [CRITICAL; k] | None => [] end).
  { destruct cr as [k|]; cbn [optb] in *; [|simpl; auto].
    pose proof (cleanLine_trimmedNE k H2) as T.
    apply cleanLine_spec in H2 as (Hne & _ & Hnl & _).
    apply truthy_true in Hne. rewrite Hne.
    destruct (header_block CRITICAL k (or_introl eq_refl) T Hnl) as [T' E].
    cbn [map List.concat]. rewrite E, app_nil_r. auto. }
  assert (C : Forall trimmedNE (match li with Some ((_ :: _) as l) => [RELATED ++ nl :: join [comma; space] l] | _ => [] end)
              /\ List.concat (map nbLines (match li with Some ((_ :: _) as l) => [RELATED ++ nl :: join [comma; space] l] | _ => [] end))
                 = match li with Some l => [RELATED; join [comma; space] l] | None => [] end).
  { destruct li as [l|]; cbn [optb] in *; [|simpl; auto].
    apply andb_true_iff in H3 as [Hne Hl].
    destruct l as [|t l']; [discriminate|].
    destruct (links_line (t :: l')) as [T Hnl]; [discriminate|assumption|].
    destruct (header_block RELATED _ (or_intror eq_refl) T Hnl) as [T' E].
    cbn [map List.concat]. rewrite E, app_nil_r. auto. }
  destruct A as [A1 A2], B as [B1 B2], C as [C1 C2]. split.
  - apply Forall_app. split; [assumption|]. apply Forall_app. auto.
  - rewrite !map_app, !concat_app, A2, B2, C2. reflexivity.
Qed.

Lemma formatNotes_body (c : NoteComponents) :
  wfNote c = true ->
  formatNotes c = join [nl; nl] (contentPart c ++ criticalPart c ++ linksPart c).
Proof.
  intros H. destruct (wfNote_parts c H) as [F _]. unfold formatNotes.
  destruct (contentPart c ++ criticalPart c ++ linksPart c) eqn:E.
  - reflexivity.
  - apply trim_fix. apply join_trimmed; [discriminate|assumption].
Qed.

(** A well-formed record reads back as itself, up to the one link list
    that [formatNotes] writes as a header line. *)
Lemma parse_format (c : NoteComponents) :
  wfNote c = true -> parseNotes (Some (formatNotes c)) = readBack c.
Proof.
  intros H. rewrite parseNotes_nbLines, formatNotes_body by assumption.
  rewrite nbLines_join. destruct (wfNote_parts c H) as [_ ->].
  unfold wfNote in H. destruct c as [co cr li]. simpl in *.
  apply andb_true_iff in H as [H H3]. apply andb_true_iff in H as [H1 H2].
  rewrite !loop_app.
  set (st1 := loop initState match co with Some s => split nl s | None => [] end).
  assert (E1 : st1 = mkState emptyNote match co with Some s => split nl s | None => [] end SContent).
  { unfold st1. destruct co as [s|]; [|reflexivity].
    rewrite loop_content by (assumption || reflexivity). reflexivity. }
  set (st2 := loop st1 match cr with Some k => [CRITICAL; k] | None => [] end).
  assert (E2 : st2 = mkState (mkNote None cr None) match co with Some s => split nl s | None => [] end SContent).
  { unfold st2. rewrite E1. destruct cr as [k|]; [|reflexivity].
    rewrite loop_critical by (assumption || reflexivity). reflexivity. }
  assert (E3 : finish st2 = mkNote co cr None).
  { rewrite E2. unfold finish. simpl. destruct co as [s|]; [|reflexivity].
    pose proof (split_ne nl s). destruct (split nl s) eqn:E; [contradiction|].
    rewrite <- E, join_split. reflexivity. }
  unfold readBack. simpl. destruct li as [l|]; [|exact E3].
  simpl in H3. apply andb_true_iff in H3 as [Hne Hl].
  rewrite loop_related by (assumption || (destruct l; discriminate)).
  destruct (isHeader (join [comma; space] l)); [exact E3|].
  rewrite E2. unfold finish. simpl. destruct co as [s|]; [|reflexivity].
  pose proof (split_ne nl s). destruct (split nl s) eqn:E; [contradiction|].
  rewrite <- E, join_split. reflexivity.
Qed.

End ReadBackMain.

(** * Round trips *)

Section RoundTrip.

Lemma header_no_comma (h : jsstring) : isHeader h = true -> ~ In comma h.
Proof.
  intros H. apply isHeader_spec in H as [-> | ->]; vm_compute;
    intros H; repeat (destruct H as [H|H]; [discriminate|]); exact H.
Qed.

(** Only a list of one header token is written as a header line. *)
Lemma join_header (l : list jsstring) :
  isHeader (join [comma; space] l) = true ->
  l = [CRITICAL] \/ l = [RELATED].
Proof.
  intros H. destruct l as [|t [|t' l']].
  - discriminate.
  - simpl in H. apply isHeader_spec in H as [-> | ->]; auto.
  - exfalso. apply header_no_comma in H. apply H.
    rewrite join_cons by discriminate. apply in_or_app. right. left. reflexivity.
Qed.

Lemma join_not_header (l : list jsstring) :
  forallb (fun t => negb (isHeader t)) l = true ->
  isHeader (join [comma; space] l) = false.
Proof.
  intros H. apply not_true_iff_false. intros E.
  apply join_header in E as [-> | ->]; discriminate.
Qed.

Lemma roundTrips_parse (c : NoteComponents) :
  roundTrips c = true -> parseNotes (Some (formatNotes c)) = c.
Proof.
  unfold roundTrips. intros H. apply andb_true_iff in H as [Hw Hh].
  rewrite parse_format by assumption. unfold readBack.
  destruct c as [co cr [l|]]; simpl in *; [|reflexivity].
  rewrite join_not_header by assumption. reflexivity.
Qed.

Lemma formatNotes_normalize (c : NoteComponents) :
  formatNotes (normalize c) = formatNotes c.
Proof.
  unfold formatNotes, contentPart, criticalPart, linksPart, normalize.
  destruct c as [[s|] [k|] [[|t l]|]]; cbn [content critical links];
    try destruct (truthy s) eqn:Es; try destruct (truthy k) eqn:Ek;
    rewrite ?Es, ?Ek; reflexivity.
Qed.

End RoundTrip.

(** C1 as the claim words it fails: a content of two paragraphs set apart
    by a blank line has no empty field and no header line, and reads back
    without the blank line. *)
Lemma C1_counterexample :
  let c := mkNote (Some (lit "First paragraph." +nl+ [] +nl+ lit "Second paragraph."))
                  None None in
  statedRoundTrip c = true
  /\ parseNotes (Some (formatNotes c))
     = mkNote (Some (lit "First paragraph." +nl+ lit "Second paragraph.")) None None
  /\ parseNotes (Some (formatNotes c)) <> c.
Proof. repeat split; try reflexivity. vm_compute. discriminate. Qed.

(** C1, amended: a record reads back as itself when its content, if set,
    is made of lines that are not empty, have no white space at either
    end and are not a header; its critical text, if set, is one such
    line; and its links, if set, are a non-empty list of ids that are not
    empty, have no white space at either end, hold no comma and no
    newline, and are not a header token. *)
Theorem C1_round_trip (c : NoteComponents) :
  roundTrips c = true -> parseNotes (Some (formatNotes c)) = c.
Proof. exact (roundTrips_parse c). Qed.

Lemma C1_witness :
  let c := mkNote (Some (lit "Task details here" +nl+ lit "Second line."))
                  (Some (lit "Must complete today"))
                  (Some [lit "ID1"; lit "ID2"]) in
  roundTrips c = true /\ parseNotes (Some (formatNotes c)) = c.
Proof.
  split; [reflexivity|].
  apply (C1_round_trip
           (mkNote (Some (lit "Task details here" +nl+ lit "Second line."))
                   (Some (lit "Must complete today"))
                   (Some [lit "ID1"; lit "ID2"]))).
  reflexivity.
Defined.

(** C2 as the claim words it fails: a content with an indented second line
    is written as it is, read back without the indentation, and written
    again differently. *)
Lemma C2_counterexample :
  let c := mkNote (Some (lit "Steps:" +nl+ lit "  1. call")) None None in
  formatNotes c = lit "Steps:" +nl+ lit "  1. call"
  /\ formatNotes (parseNotes (Some (formatNotes c))) = lit "Steps:" +nl+ lit "1. call"
  /\ formatNotes (parseNotes (Some (formatNotes c))) <> formatNotes c.
Proof. repeat split; try reflexivity. vm_compute. discriminate. Qed.

(** C2, amended: formatting, parsing and formatting again gives the first
    string for every record whose non-empty fields meet the conditions of
    the round trip (C1); fields set to the empty string or to the empty
    list are allowed, [formatNotes] passes over them. *)
Theorem C2_format_idempotent (c : NoteComponents) :
  roundTrips (normalize c) = true ->
  formatNotes (parseNotes (Some (formatNotes c))) = formatNotes c.
Proof.
  intros H. rewrite <- (formatNotes_normalize c).
  rewrite roundTrips_parse by assumption. reflexivity.
Qed.

Lemma C2_witness :
  let c := mkNote (Some []) (Some (lit "Blocking release")) (Some [lit "ABC123"]) in
  roundTrips (normalize c) = true
  /\ formatNotes (parseNotes (Some (formatNotes c))) = formatNotes c.
Proof.
  split; [reflexivity|].
  apply (C2_format_idempotent
           (mkNote (Some []) (Some (lit "Blocking release")) (Some [lit "ABC123"]))).
  reflexivity.
Defined.

(** * The link mutators *)

Section LinkMutators.

Lemma parsedOk_fields (c : NoteComponents) :
  parsedOk c = true ->
  optb (fun s => forallb cleanLine (split nl s)) (content c) = true
  /\ optb cleanLine (critical c) = true
  /\ optb (forallb cleanToken) (links c) = true.
Proof.
  unfold parsedOk. intros H.
  apply andb_true_iff in H as [H H3]. apply andb_true_iff in H as [H1 H2]. auto.
Qed.

Lemma wfNote_intro (co cr : option jsstring) (li : option (list jsstring)) :
  optb (fun s => forallb cleanLine (split nl s)) co = true ->
  optb cleanLine cr = true ->
  optb (fun l => nonEmpty l && forallb cleanToken l) li = true ->
  wfNote (mkNote co cr li) = true.
Proof. unfold wfNote. simpl. intros -> -> ->. reflexivity. Qed.

Lemma forallb_filter {A} (p q : A -> bool) (l : list A) :
  forallb p l = true -> forallb p (filter q l) = true.
Proof.
  rewrite !forallb_forall. intros H x Hx. apply filter_In in Hx. apply H, Hx.
Qed.

Lemma forallb_incl {A} (p : A -> bool) (l l' : list A) :
  (forall x, In x l' -> In x l) -> forallb p l = true -> forallb p l' = true.
Proof. rewrite !forallb_forall. auto. Qed.

(** [removeLink] is [formatNotes] of the parsed record with the id taken
    out of its links, the field dropped when nothing is left. *)
Lemma removeLink_format (text : option jsstring) (id : jsstring) :
  let c := parseNotes text in
  removeLink text id
  = formatNotes
      (mkNote (content c) (critical c)
              (match links c with
               | Some _ =>
                   someIfAny (linksWithout text id)
               | None => None
               end)).
Proof.
  unfold removeLink, linksWithout. cbn zeta.
  destruct (links (parseNotes text)) as [l|]; [|reflexivity].
  simpl. unfold someIfAny. destruct (filter _ l); reflexivity.
Qed.

Lemma removed_wf (text : option jsstring) (id : jsstring) :
  let c := parseNotes text in
  wfNote (mkNote (content c) (critical c)
                 (match links c with
                  | Some _ =>
                      someIfAny (linksWithout text id)
                  | None => None
                  end)) = true.
Proof.
  cbn zeta. destruct (parsedOk_fields _ (parseNotes_parsedOk text)) as (H1 & H2 & H3).
  apply wfNote_intro; auto. unfold linksWithout.
  destruct (links (parseNotes text)) as [l|]; [|reflexivity]. simpl in *.
  pose proof (forallb_filter cleanToken (fun x => negb (streq x id)) l H3) as F.
  unfold someIfAny. destruct (filter _ l); [reflexivity|]. exact F.
Qed.

Lemma linksWithout_notin (text : option jsstring) (id : jsstring) :
  ~ In id (linksWithout text id).
Proof.
  unfold linksWithout. intros H. apply filter_In in H as [_ H].
  rewrite streq_refl in H. discriminate.
Qed.

(** The lines of a record formatted without links. *)
Lemma format_lines_no_links (co cr : option jsstring) (l : jsstring) :
  wfNote (mkNote co cr None) = true ->
  In l (split nl (formatNotes (mkNote co cr None))) ->
  trim l <> RELATED.
Proof.
  intros Hw Hin. pose proof Hw as Hw'. unfold wfNote in Hw'. simpl in Hw'.
  apply andb_true_iff in Hw' as [Hw' _]. apply andb_true_iff in Hw' as [H1 H2].
  destruct (isBlank l) eqn:Eb.
  - unfold isBlank in Eb. destruct (trim l); discriminate.
  - assert (Hn : In l (nbLines (formatNotes (mkNote co cr None)))).
    { unfold nbLines. apply filter_In. rewrite Eb. auto. }
    rewrite formatNotes_body, nbLines_join in Hn by assumption.
    destruct (wfNote_parts _ Hw) as [_ E]. rewrite E in Hn. simpl in Hn.
    rewrite app_nil_r in Hn. apply in_app_or in Hn as [Hn|Hn].
    + destruct co as [s|]; [|destruct Hn]. simpl in H1.
      rewrite forallb_forall in H1. apply H1, cleanLine_spec in Hn.
      destruct Hn as (_ & -> & _ & _ & Hr). exact Hr.
    + destruct cr as [k|]; [|destruct Hn]. simpl in H2.
      apply cleanLine_spec in H2 as (_ & Ht & _ & _ & Hr).
      destruct Hn as [<-|[<-|[]]]; [discriminate|]. rewrite Ht. exact Hr.
Qed.

Lemma removeLink_parse_links (text : option jsstring) (id : jsstring) :
  ~ In id (orNil (links (parseNotes (Some (removeLink text id))))).
Proof.
  rewrite removeLink_format. cbn zeta.
  rewrite parse_format by apply removed_wf. unfold readBack. simpl.
  destruct (links (parseNotes text)) as [l0|]; [|simpl; tauto].
  pose proof (linksWithout_notin text id) as Hn.
  unfold someIfAny. destruct (linksWithout text id) as [|t l]; [simpl; tauto|].
  destruct (isHeader _); [simpl; tauto|]. exact Hn.
Qed.

Lemma removeLink_no_related (text : option jsstring) (id : jsstring) :
  linksWithout text id = [] ->
  Forall (fun l => trim l <> RELATED) (split nl (removeLink text id)).
Proof.
  intros He. apply Forall_forall. intros l Hl.
  pose proof (removed_wf text id) as Hw. cbn zeta in Hw.
  rewrite removeLink_format in Hl. cbn zeta in Hl. rewrite He in *.
  assert (E : match links (parseNotes text) with
              | Some _ => someIfAny [] | None => None end = None)
    by (destruct (links (parseNotes text)); reflexivity).
  rewrite E in *. eapply format_lines_no_links; eauto.
Qed.

End LinkMutators.

(** C7: [removeLink] takes the id out of the parsed links: it formats the
    parsed record with the links that are not the id, and the id is not
    among the links of its output read back. When no link is left the
    field is dropped: no line of the output is a [Related:] header. On
    ["Content\n\nRelated:\nABC"] and ["ABC"] the output is ["Content"]. *)
Theorem C7_removeLink (text : option jsstring) (id : jsstring) :
  let c := parseNotes text in
  let rest := linksWithout text id in
  removeLink text id
  = formatNotes (mkNote (content c) (critical c)
                        (match links c with
                         | Some _ => someIfAny rest
                         | None => None
                         end))
  /\ ~ In id rest
  /\ ~ In id (orNil (links (parseNotes (Some (removeLink text id)))))
  /\ (rest = [] ->
      Forall (fun l => trim l <> RELATED) (split nl (removeLink text id)))
  /\ removeLink (Some (lit "Content" +nl+ [] +nl+ lit "Related:" +nl+ lit "ABC"))
                (lit "ABC")
     = lit "Content".
Proof.
  cbn zeta. split; [apply removeLink_format|].
  split; [apply linksWithout_notin|].
  split; [apply removeLink_parse_links|].
  split; [apply removeLink_no_related|]. reflexivity.
Qed.

Lemma C7_witness :
  let text := Some (lit "Content" +nl+ [] +nl+ lit "Related:" +nl+ lit "ABC") in
  linksWithout text (lit "ABC") = []
  /\ Forall (fun l => trim l <> RELATED) (split nl (removeLink text (lit "ABC"))).
Proof.
  split; [reflexivity|].
  apply (C7_removeLink
           (Some (lit "Content" +nl+ [] +nl+ lit "Related:" +nl+ lit "ABC"))
           (lit "ABC")).
  reflexivity.
Defined.

Section AddRemove.

Lemma dedup_incl (l : list jsstring) (x : jsstring) : In x (dedup l) <-> In x l.
Proof. unfold dedup. rewrite firstSeen_In. simpl. tauto. Qed.

Lemma setOf_snoc (l : list jsstring) (x : jsstring) :
  mem x l = false -> setOf (l ++ [x]) = dedup l ++ [x].
Proof.
  intros H. rewrite setOf_app. unfold specLinkUnion. simpl.
  rewrite H. reflexivity.
Qed.

Lemma filter_snoc_out (l : list jsstring) (x : jsstring) :
  ~ In x l -> filter (fun y => negb (streq y x)) (l ++ [x]) = l.
Proof.
  intros H. rewrite filter_app. simpl. rewrite streq_refl. simpl.
  rewrite app_nil_r. apply filter_all. apply forallb_forall. intros y Hy.
  apply negb_true_iff, streq_neq. congruence.
Qed.

(** What [addLink] writes reads back as the parsed record with the id
    after its links, up to the loss of a link list written as a header. *)
Lemma addLink_parse (text : option jsstring) (x : jsstring) :
  cleanToken x = true ->
  mem x (orNil (links (parseNotes text))) = false ->
  parseNotes (Some (addLink text x))
  = readBack (mkNote (content (parseNotes text)) (critical (parseNotes text))
                     (Some (dedup (orNil (links (parseNotes text))) ++ [x]))).
Proof.
  intros Hc Hm.
  destruct (parsedOk_fields _ (parseNotes_parsedOk text)) as (H1 & H2 & H3).
  unfold addLink. cbn zeta. rewrite setOf_snoc by assumption.
  apply parse_format. apply wfNote_intro; auto. simpl.
  apply andb_true_iff. split.
  - destruct (dedup _); reflexivity.
  - rewrite forallb_app. simpl. rewrite Hc, andb_true_r.
    apply forallb_incl with (orNil (links (parseNotes text))).
    + intros y. apply dedup_incl.
    + destruct (links (parseNotes text)); [exact H3|reflexivity].
Qed.

Lemma snoc_header (l : list jsstring) (x : jsstring) :
  isHeader (join [comma; space] (l ++ [x])) = true -> l = [].
Proof.
  intros E. apply join_header in E.
  destruct l as [|t [|t' l']]; auto; destruct E; discriminate.
Qed.

Lemma add_remove_parse (text : option jsstring) (x : jsstring) :
  cleanToken x = true ->
  mem x (orNil (links (parseNotes text))) = false ->
  dedup (orNil (links (parseNotes text))) <> [CRITICAL] ->
  dedup (orNil (links (parseNotes text))) <> [RELATED] ->
  parseNotes (Some (removeLink (Some (addLink text x)) x))
  = mkNote (content (parseNotes text)) (critical (parseNotes text))
           (someIfAny (dedup (orNil (links (parseNotes text))))).
Proof.
  intros Hx Hm Hc Hr.
  destruct (parsedOk_fields _ (parseNotes_parsedOk text)) as (H1 & H2 & H3).
  assert (Hn : ~ In x (dedup (orNil (links (parseNotes text))))).
  { rewrite dedup_incl, <- mem_In. congruence. }
  rewrite removeLink_format. cbn zeta. unfold linksWithout.
  rewrite addLink_parse by assumption. unfold readBack at 1 2 3 4.
  cbn [content critical links orNil].
  destruct (isHeader (join [comma; space] (dedup _ ++ [x]))) eqn:Eh.
  - (* the id alone is written as a header line, and is lost *)
    apply snoc_header in Eh. rewrite Eh. cbn [someIfAny].
    rewrite parse_format by (apply wfNote_intro; auto). reflexivity.
  - cbn [orNil]. rewrite filter_snoc_out by assumption.
    rewrite parse_format.
    + unfold readBack. cbn [content critical links]. f_equal.
      destruct (someIfAny _) as [l|] eqn:E; [|reflexivity].
      destruct (isHeader (join [comma; space] l)) eqn:Eh'; [|reflexivity].
      apply join_header in Eh'. unfold someIfAny in E.
      destruct (dedup _); [discriminate|]. injection E as <-.
      destruct Eh'; contradiction.
    + apply wfNote_intro; auto. unfold someIfAny.
      destruct (dedup _) eqn:E; [reflexivity|]. rewrite <- E. simpl.
      apply andb_true_iff. split; [rewrite E; reflexivity|].
      apply forallb_incl with (orNil (links (parseNotes text))).
      * intros y. apply dedup_incl.
      * destruct (links (parseNotes text)); [exact H3|reflexivity].
Qed.

End AddRemove.

(** C8 as the claim words it fails: on an absent text, adding the id
    ["a,b"] and removing it again leaves the two links ["a"] and ["b"],
    where the text had none. *)
Lemma C8_counterexample :
  let x := lit "a,b" in
  mem x (orNil (links (parseNotes None))) = false
  /\ orNil (links (parseNotes None)) = []
  /\ orNil (links (parseNotes (Some (removeLink (Some (addLink None x)) x))))
     = [lit "a"; lit "b"].
Proof. repeat split. Qed.

(** The proviso on the links of the text is needed: the only link of
    ["Related:\nCritical:,"] is the header token, and it is lost. *)
Example add_remove_header_link :
  let text := Some (lit "Related:" +nl+ lit "Critical:,") in
  links (parseNotes text) = Some [CRITICAL]
  /\ links (parseNotes (Some (removeLink (Some (addLink text (lit "Z"))) (lit "Z"))))
     = None.
Proof. split; reflexivity. Qed.

(** C8, amended: for an id that is not empty, has no white space at either
    end and holds no comma and no newline, and that
    is not among the links parsed from the text, removing the id after
    adding it gives a text that parses to the content and critical of the
    original and to its links without repetition (absent when there are
    none), provided those links are not the single entry [Critical:] or
    [Related:]. *)
Theorem C8_add_remove (text : option jsstring) (x : jsstring) :
  let p := parseNotes text in
  let q := parseNotes (Some (removeLink (Some (addLink text x)) x)) in
  cleanToken x = true ->
  mem x (orNil (links p)) = false ->
  dedup (orNil (links p)) <> [CRITICAL] ->
  dedup (orNil (links p)) <> [RELATED] ->
  content q = content p
  /\ critical q = critical p
  /\ links q = someIfAny (dedup (orNil (links p)))
  /\ (forall y, In y (orNil (links q)) <-> In y (orNil (links p))).
Proof.
  cbn zeta. intros Hx Hm Hc Hr.
  rewrite (add_remove_parse text x Hx Hm Hc Hr). cbn [content critical links].
  repeat split; try (intros H).
  - apply dedup_incl. unfold someIfAny in H.
    destruct (dedup _); [destruct H|exact H].
  - apply dedup_incl in H. unfold someIfAny.
    destruct (dedup _); [destruct H|exact H].
Qed.

Lemma C8_witness :
  let text := Some (lit "Call the bank" +nl+ [] +nl+ lit "Related:" +nl+ lit "ABC, DEF") in
  let x := lit "GHI" in
  let p := parseNotes text in
  let q := parseNotes (Some (removeLink (Some (addLink text x)) x)) in
  (cleanToken x = true /\ mem x (orNil (links p)) = false)
  /\ content q = content p
  /\ critical q = critical p
  /\ links q = someIfAny (dedup (orNil (links p)))
  /\ (forall y, In y (orNil (links q)) <-> In y (orNil (links p))).
Proof.
  split; [split; reflexivity|].
  apply (C8_add_remove
           (Some (lit "Call the bank" +nl+ [] +nl+ lit "Related:" +nl+ lit "ABC, DEF"))
           (lit "GHI")); try reflexivity; vm_compute; discriminate.
Defined.

(** * Further properties of parseNotes *)

Section ParseShape.

Lemma loop_map_trim (lines : list jsstring) (st : ParseState) :
  loop st (map trim lines) = loop st lines.
Proof.
  revert st. induction lines as [|l ls IH]; intros st; simpl; auto.
  rewrite step_trim. apply IH.
Qed.

(** Lines that are neither blank nor headers are all buffered as content,
    trimmed, when the loop is in the content section. *)
Lemma loop_plain (ls : list jsstring) (st : ParseState) :
  forallb (fun l => negb (isBlank l) && negb (isHeader (trim l))) ls = true ->
  currentSection st = SContent ->
  loop st ls = mkState (components st) (contentLines st ++ map trim ls) SContent.
Proof.
  revert st. induction ls as [|l ls IH]; intros st H Hs.
  - destruct st as [c cl sec]. simpl in *. rewrite app_nil_r. congruence.
  - simpl in H. apply andb_true_iff in H as [Hl H].
    apply andb_true_iff in Hl as [Hb Hh].
    apply negb_true_iff in Hb. apply negb_true_iff in Hh.
    apply not_true_iff_false in Hh. rewrite isHeader_spec in Hh.
    assert (Hne : trim l <> []).
    { unfold isBlank in Hb. destruct (trim l); [discriminate|discriminate]. }
    simpl. rewrite step_capture by tauto. rewrite Hs. cbn zeta.
    fold (loop (mkState (components st) (contentLines st ++ [trim l]) SContent) ls).
    rewrite IH by auto. simpl. rewrite <- app_assoc. reflexivity.
Qed.

Lemma nbLines_plain (s : jsstring) :
  noHeaderLines s = true ->
  forallb (fun l => negb (isBlank l) && negb (isHeader (trim l))) (nbLines s) = true.
Proof.
  unfold noHeaderLines, nbLines. rewrite !forallb_forall. intros H l Hl.
  apply filter_In in Hl as [Hl Hb]. rewrite Hb. simpl. auto.
Qed.

End ParseShape.

(** X1: the critical text that [parseNotes] returns is one line: it is not
    empty, has no white space at either end, holds no newline and is not a
    header token. *)
Theorem parse_critical_shape (notes : option jsstring) (k : jsstring) :
  critical (parseNotes notes) = Some k ->
  k <> [] /\ trim k = k /\ ~ In nl k /\ k <> CRITICAL /\ k <> RELATED.
Proof.
  intros H.
  destruct (parsedOk_fields _ (parseNotes_parsedOk notes)) as (_ & H2 & _).
  rewrite H in H2. apply cleanLine_spec. exact H2.
Qed.

Lemma parse_critical_shape_witness :
  let notes := Some (lit "Critical:" +nl+ lit "   Blocking release  " +nl+ lit "more") in
  let k := lit "Blocking release" in
  critical (parseNotes notes) = Some k
  /\ k <> [] /\ trim k = k /\ ~ In nl k /\ k <> CRITICAL /\ k <> RELATED.
Proof.
  split; [reflexivity|].
  apply (parse_critical_shape
           (Some (lit "Critical:" +nl+ lit "   Blocking release  " +nl+ lit "more"))).
  reflexivity.
Defined.

(** X2: every link id that [parseNotes] returns is not empty, has no white
    space at either end and holds neither a comma nor a newline. *)
Theorem parse_links_shape (notes : option jsstring) (l : list jsstring) :
  links (parseNotes notes) = Some l ->
  Forall (fun t => t <> [] /\ trim t = t /\ ~ In nl t /\ ~ In comma t) l.
Proof.
  intros H.
  destruct (parsedOk_fields _ (parseNotes_parsedOk notes)) as (_ & _ & H3).
  rewrite H in H3. simpl in H3. apply Forall_forall. intros t Ht.
  rewrite forallb_forall in H3. apply cleanToken_spec. auto.
Qed.

Lemma parse_links_shape_witness :
  let notes := Some (lit "Related:" +nl+ lit " ABC ,, DEF ,") in
  let l := [lit "ABC"; lit "DEF"] in
  links (parseNotes notes) = Some l
  /\ Forall (fun t => t <> [] /\ trim t = t /\ ~ In nl t /\ ~ In comma t) l.
Proof.
  split; [reflexivity|].
  apply (parse_links_shape (Some (lit "Related:" +nl+ lit " ABC ,, DEF ,"))).
  reflexivity.
Defined.

(** X3: [parseNotes] sees a text only through its non-blank lines, each
    trimmed: two texts with the same trimmed non-blank lines parse to the
    same record, so blank lines and the white space around a line never
    matter. *)
Theorem parse_insensitive (s1 s2 : jsstring) :
  map trim (nbLines s1) = map trim (nbLines s2) ->
  parseNotes (Some s1) = parseNotes (Some s2).
Proof.
  intros H. rewrite !parseNotes_nbLines.
  rewrite <- (loop_map_trim (nbLines s1)), <- (loop_map_trim (nbLines s2)), H.
  reflexivity.
Qed.

Lemma parse_insensitive_witness :
  let s1 := lit "  Buy milk " +nl+ [] +nl+ [9] +nl+ lit " Critical: " +nl+ [] +nl+ lit " today" in
  let s2 := lit "Buy milk" +nl+ lit "Critical:" +nl+ lit "today" in
  map trim (nbLines s1) = map trim (nbLines s2)
  /\ parseNotes (Some s1) = parseNotes (Some s2).
Proof.
  split; [reflexivity|].
  apply (parse_insensitive
           (lit "  Buy milk " +nl+ [] +nl+ [9] +nl+ lit " Critical: " +nl+ [] +nl+ lit " today")
           (lit "Buy milk" +nl+ lit "Critical:" +nl+ lit "today")).
  reflexivity.
Defined.

(** X4: a text none of whose lines is a header parses to content only:
    its non-blank lines, trimmed and joined by newlines, with no critical
    text and no links; the content is absent when every line is blank. *)
Theorem parse_plain_text (s : jsstring) :
  noHeaderLines s = true ->
  parseNotes (Some s) = mkNote (joinLines (map trim (nbLines s))) None None.
Proof.
  intros H. rewrite parseNotes_nbLines.
  rewrite (loop_plain (nbLines s) initState (nbLines_plain s H) eq_refl).
  unfold finish. simpl. destruct (map trim (nbLines s)); reflexivity.
Qed.

Lemma parse_plain_text_witness :
  let s := lit "  Call the bank" +nl+ [] +nl+ lit "ask about: fees  " in
  noHeaderLines s = true
  /\ parseNotes (Some s)
     = mkNote (Some (lit "Call the bank" +nl+ lit "ask about: fees")) None None.
Proof.
  split; [reflexivity|].
  apply (parse_plain_text (lit "  Call the bank" +nl+ [] +nl+ lit "ask about: fees  ")).
  reflexivity.
Defined.

(** * Further properties of formatNotes *)

Section FormatFacts.

Lemma trimStart_nil (s : jsstring) : trimStart s = [] <-> allWhite s = true.
Proof.
  unfold allWhite. induction s as [|c r IH]; simpl; [tauto|].
  destruct (isWhiteSpace c); simpl; [exact IH|].
  split; discriminate.
Qed.

Lemma allWhite_rev (s : jsstring) : allWhite (rev s) = true <-> allWhite s = true.
Proof.
  unfold allWhite. rewrite !forallb_forall.
  split; intros H x Hx; apply H; [apply in_rev in Hx|apply in_rev]; assumption.
Qed.

Lemma allWhite_trimStart (s : jsstring) :
  allWhite (trimStart s) = true <-> allWhite s = true.
Proof.
  rewrite <- (trimStart_nil s). split.
  - intros H. pose proof (trimStart_headOk s) as Hh.
    destruct (trimStart s) as [|c r]; [reflexivity|].
    unfold allWhite in H. simpl in *.
    destruct (isWhiteSpace c); discriminate.
  - intros ->. reflexivity.
Qed.

Lemma trim_eq_nil (s : jsstring) : trim s = [] <-> allWhite s = true.
Proof.
  unfold trim, trimEnd.
  rewrite <- allWhite_trimStart, <- allWhite_rev, <- trimStart_nil.
  split; intros H.
  - apply (f_equal (@rev N)) in H. rewrite rev_involutive in H. exact H.
  - rewrite H. reflexivity.
Qed.

Lemma join_In (sep p : jsstring) (parts : list jsstring) (c : N) :
  In p parts -> In c p -> In c (join sep parts).
Proof.
  induction parts as [|q ps IH]; [intros []|]. intros Hp Hc.
  destruct ps as [|q' ps'].
  - destruct Hp as [->|[]]. exact Hc.
  - rewrite join_cons by discriminate. rewrite !in_app_iff.
    destruct Hp as [->|Hp]; [left; exact Hc|]. right. right. apply IH; assumption.
Qed.

Lemma allWhite_In (s : jsstring) (c : N) :
  allWhite s = true -> In c s -> isWhiteSpace c = true.
Proof. unfold allWhite. rewrite forallb_forall. auto. Qed.

End FormatFacts.

(** X5: [formatNotes] returns the empty string exactly when there is
    nothing to write: the content is absent or only white space, the
    critical text is absent or empty, and the links are absent or the
    empty list. *)
Theorem format_empty_iff (c : NoteComponents) :
  formatNotes c = []
  <-> match content c with Some s => allWhite s = true | None => True end
      /\ (critical c = None \/ critical c = Some [])
      /\ (links c = None \/ links c = Some []).
Proof.
  unfold formatNotes. rewrite trim_eq_nil. destruct c as [co cr li].
  unfold contentPart, criticalPart, linksPart. cbn [content critical links].
  split.
  - intros H.
    assert (Hcr : cr = None \/ cr = Some []).
    { destruct cr as [[|x k]|]; auto. exfalso.
      assert (E : isWhiteSpace 67 = true); [|discriminate E].
      apply (allWhite_In _ 67 H).
      apply join_In with (CRITICAL +nl+ (x :: k)).
      - apply in_or_app. right. apply in_or_app. left. left. reflexivity.
      - left. reflexivity. }
    assert (Hli : li = None \/ li = Some []).
    { destruct li as [[|t l]|]; auto. exfalso.
      assert (E : isWhiteSpace 82 = true); [|discriminate E].
      apply (allWhite_In _ 82 H).
      apply join_In with (RELATED +nl+ join [comma; space] (t :: l)).
      - apply in_or_app. right. apply in_or_app. right. left. reflexivity.
      - left. reflexivity. }
    split; [|auto].
    destruct Hcr as [-> | ->], Hli as [-> | ->]; destruct co as [[|x s]|];
      simpl in H; auto.
  - intros (Hco & [-> | ->] & [-> | ->]); destruct co as [[|x s]|]; simpl; auto.
Qed.

(** * Re-encoding a parsed note *)

Section Reencode.

Lemma normalize_parsedOk (c : NoteComponents) :
  parsedOk c = true ->
  normalize c
  = mkNote (content c) (critical c)
           (match links c with Some l => someIfAny l | None => None end)
  /\ wfNote (normalize c) = true.
Proof.
  intros H. destruct (parsedOk_fields c H) as (H1 & H2 & H3).
  destruct c as [co cr li]. cbn [content critical links] in *.
  assert (E1 : match co with Some s => if truthy s then Some s else None | None => None end = co).
  { destruct co as [s|]; [|reflexivity]. simpl in H1.
    destruct (content_block s H1) as (-> & _). reflexivity. }
  assert (E2 : match cr with Some k => if truthy k then Some k else None | None => None end = cr).
  { destruct cr as [k|]; [|reflexivity]. simpl in H2.
    apply cleanLine_spec in H2 as (Hne & _). apply truthy_true in Hne.
    rewrite Hne. reflexivity. }
  assert (E3 : match li with Some ((_ :: _) as l) => Some l | _ => None end
               = match li with Some l => someIfAny l | None => None end).
  { destruct li as [[|t l]|]; reflexivity. }
  unfold normalize. cbn [content critical links]. rewrite E1, E2, E3.
  split; [reflexivity|]. apply wfNote_intro; auto.
  destruct li as [[|t l]|]; simpl in *; auto.
Qed.

(** What is written from a record of the shape [parseNotes] returns reads
    back with the same content and critical text; its links read back as
    well unless they are empty or written as a header line. *)
Lemma parse_format_parsedOk (c : NoteComponents) :
  parsedOk c = true ->
  parseNotes (Some (formatNotes c))
  = readBack (mkNote (content c) (critical c)
                     (match links c with Some l => someIfAny l | None => None end)).
Proof.
  intros H. destruct (normalize_parsedOk c H) as [E Hw].
  rewrite <- (formatNotes_normalize c), parse_format by assumption.
  rewrite E. reflexivity.
Qed.

Lemma parsedOk_intro (co cr : option jsstring) (li : option (list jsstring)) :
  optb (fun s => forallb cleanLine (split nl s)) co = true ->
  optb cleanLine cr = true ->
  optb (forallb cleanToken) li = true ->
  parsedOk (mkNote co cr li) = true.
Proof. unfold parsedOk. simpl. intros -> -> ->. reflexivity. Qed.


End Reencode.


(** * The point mutators *)

Section Mutators.

Lemma parsed_with_critical (text : option jsstring) (cr : option jsstring) :
  optb cleanLine cr = true ->
  parsedOk (mkNote (content (parseNotes text)) cr (links (parseNotes text))) = true.
Proof.
  intros H.
  destruct (parsedOk_fields _ (parseNotes_parsedOk text)) as (H1 & _ & H3).
  apply parsedOk_intro; assumption.
Qed.

Lemma firstSeen_fresh (l s : list jsstring) :
  NoDup l -> (forall y, In y l -> ~ In y s) -> firstSeen s l = l.
Proof.
  revert s. induction l as [|x r IH]; intros s Hn Hs; simpl; auto.
  inversion Hn as [|? ? Hx Hr]; subst.
  assert (E : mem x s = false).
  { apply not_true_iff_false. rewrite mem_In. apply Hs. left. reflexivity. }
  rewrite E. f_equal. apply IH; auto.
  intros y Hy [<-|H]; [contradiction|]. apply (Hs y); simpl; auto.
Qed.

Lemma dedup_NoDup (l : list jsstring) : NoDup l -> dedup l = l.
Proof. intros H. apply firstSeen_fresh; auto. Qed.

Lemma setOf_snoc_in (l : list jsstring) (x : jsstring) :
  mem x l = true -> setOf (l ++ [x]) = dedup l.
Proof.
  intros H. rewrite setOf_app. unfold specLinkUnion. simpl.
  rewrite H. simpl. apply app_nil_r.
Qed.

Lemma setOf_snoc_cases (l : list jsstring) (x : jsstring) :
  setOf (l ++ [x]) = dedup l ++ (if mem x l then [] else [x]).
Proof.
  destruct (mem x l) eqn:E.
  - rewrite app_nil_r. apply setOf_snoc_in. assumption.
  - apply setOf_snoc. assumption.
Qed.

Lemma added_facts (text : option jsstring) (x : jsstring) :
  cleanToken x = true ->
  let M := setOf (orNil (links (parseNotes text)) ++ [x]) in
  NoDup M /\ mem x M = true /\ forallb cleanToken M = true /\ M <> [].
Proof.
  intros Hx M.
  destruct (parsedOk_fields _ (parseNotes_parsedOk text)) as (_ & _ & H3).
  assert (HL : forallb cleanToken (orNil (links (parseNotes text))) = true).
  { destruct (links (parseNotes text)); [exact H3|reflexivity]. }
  assert (Hin : forall y, In y M <-> In y (orNil (links (parseNotes text))) \/ y = x).
  { intros y. unfold M. rewrite setOf_dedup, dedup_incl, in_app_iff. simpl.
    intuition congruence. }
  split; [unfold M; rewrite setOf_dedup; apply firstSeen_NoDup|].
  split; [apply mem_In, Hin; auto|]. split.
  - apply forallb_forall. intros y Hy. apply Hin in Hy as [Hy| ->]; auto.
    rewrite forallb_forall in HL. auto.
  - intros E. assert (In x M) by (apply Hin; auto). rewrite E in H. destruct H.
Qed.

End Mutators.

(** X7: after [setCritical] with a text that is one clean line (not empty,
    no white space at either end, no newline, not a header token), the
    note parses to that critical text; its content is that of the original
    note and its links are those the original note has when re-encoded. *)
Theorem setCritical_parse (text : option jsstring) (k : jsstring) :
  cleanLine k = true ->
  let p := parseNotes text in
  let q := parseNotes (Some (setCritical text k)) in
  critical q = Some k
  /\ content q = content p
  /\ links q = links (parseNotes (Some (formatNotes p))).
Proof.
  intros Hk. cbn zeta. unfold setCritical. cbn zeta.
  rewrite (parse_format_parsedOk _ (parsed_with_critical text (Some k) Hk)).
  rewrite (parse_format_parsedOk _ (parseNotes_parsedOk text)).
  repeat split.
Qed.

Lemma setCritical_parse_witness :
  let text := Some (lit "Review the PR" +nl+ [] +nl+ lit "Critical:" +nl+ lit "Old"
                    +nl+ [] +nl+ lit "Related:" +nl+ lit "A, B") in
  let k := lit "Deadline today" in
  let p := parseNotes text in
  let q := parseNotes (Some (setCritical text k)) in
  cleanLine k = true
  /\ critical q = Some k
  /\ content q = content p
  /\ links q = links (parseNotes (Some (formatNotes p))).
Proof.
  split; [reflexivity|].
  apply (setCritical_parse
           (Some (lit "Review the PR" +nl+ [] +nl+ lit "Critical:" +nl+ lit "Old"
                  +nl+ [] +nl+ lit "Related:" +nl+ lit "A, B"))
           (lit "Deadline today")).
  reflexivity.
Defined.

(** X8: [clearCritical] gives a note that parses to no critical text, with
    the content of the original note and the links the original note has
    when re-encoded; and [setCritical] with the empty string does the same
    as [clearCritical]. *)
Theorem clearCritical_parse (text : option jsstring) :
  let p := parseNotes text in
  let q := parseNotes (Some (clearCritical text)) in
  critical q = None
  /\ content q = content p
  /\ links q = links (parseNotes (Some (formatNotes p)))
  /\ setCritical text [] = clearCritical text.
Proof.
  cbn zeta. unfold clearCritical. cbn zeta.
  rewrite (parse_format_parsedOk _ (parsed_with_critical text None eq_refl)).
  rewrite (parse_format_parsedOk _ (parseNotes_parsedOk text)).
  repeat split.
Qed.

(** X9: a mutator with nothing to change re-encodes the note:
    [clearCritical] on a note without critical text, and [removeLink] of
    an id that is not among the links, both return
    [formatNotes(parseNotes(text))]. *)
Theorem mutator_noop (text : option jsstring) (id : jsstring) :
  (critical (parseNotes text) = None ->
   clearCritical text = formatNotes (parseNotes text))
  /\ (mem id (orNil (links (parseNotes text))) = false ->
      removeLink text id = formatNotes (parseNotes text)).
Proof.
  split.
  - intros H. unfold clearCritical. cbn zeta. rewrite <- H.
    destruct (parseNotes text); reflexivity.
  - intros H. rewrite removeLink_format. cbn zeta. unfold linksWithout.
    rewrite filter_all.
    + destruct (parseNotes text) as [co cr [[|t l]|]]; reflexivity.
    + apply forallb_forall. intros y Hy. apply negb_true_iff, streq_neq.
      intros ->. apply mem_In in Hy. congruence.
Qed.

Lemma mutator_noop_witness :
  let text := Some (lit "  Call the bank " +nl+ [] +nl+ [] +nl+ lit "Related:" +nl+ lit "ABC ,DEF") in
  (critical (parseNotes text) = None
   /\ mem (lit "XYZ") (orNil (links (parseNotes text))) = false)
  /\ clearCritical text = formatNotes (parseNotes text)
  /\ removeLink text (lit "XYZ") = formatNotes (parseNotes text).
Proof.
  split; [split; reflexivity|].
  destruct (mutator_noop
              (Some (lit "  Call the bank " +nl+ [] +nl+ [] +nl+ lit "Related:" +nl+ lit "ABC ,DEF"))
              (lit "XYZ")) as [H1 H2].
  split; [apply H1|apply H2]; reflexivity.
Defined.

(** X10: [removeLink] never touches the rest of the note: its output parses
    to the content and the critical text of the original note, whatever
    the id. *)
Theorem removeLink_keeps_text (text : option jsstring) (id : jsstring) :
  let p := parseNotes text in
  let q := parseNotes (Some (removeLink text id)) in
  content q = content p /\ critical q = critical p.
Proof.
  cbn zeta. rewrite removeLink_format. cbn zeta.
  rewrite parse_format by apply removed_wf. split; reflexivity.
Qed.

(** X11: [addLink] writes the links of the note in their order without
    repetition, followed by the id when it is not among them already. *)
Theorem addLink_links (text : option jsstring) (x : jsstring) :
  let p := parseNotes text in
  let l := orNil (links p) in
  addLink text x
  = formatNotes (mkNote (content p) (critical p)
                        (Some (dedup l ++ (if mem x l then [] else [x])))).
Proof.
  cbn zeta. unfold addLink. cbn zeta. rewrite setOf_snoc_cases. reflexivity.
Qed.

(** X12: for an id that is a clean token (not empty, no white space at
    either end, no comma, no newline), [addLink] is idempotent: adding the
    id to the note it has just been added to changes nothing. The note
    still parses to the content and critical text of the original. *)
Theorem addLink_idempotent (text : option jsstring) (x : jsstring) :
  cleanToken x = true ->
  addLink (Some (addLink text x)) x = addLink text x
  /\ content (parseNotes (Some (addLink text x))) = content (parseNotes text)
  /\ critical (parseNotes (Some (addLink text x))) = critical (parseNotes text).
Proof.
  intros Hx. destruct (added_facts text x Hx) as (Hn & Hm & Hc & Hne).
  destruct (parsedOk_fields _ (parseNotes_parsedOk text)) as (H1 & H2 & _).
  assert (E : parseNotes (Some (addLink text x))
              = readBack (mkNote (content (parseNotes text)) (critical (parseNotes text))
                                 (Some (setOf (orNil (links (parseNotes text)) ++ [x]))))).
  { unfold addLink at 1. cbn zeta. rewrite parse_format_parsedOk.
    - cbn [content critical links]. unfold someIfAny.
      destruct (setOf _); [congruence|reflexivity].
    - apply parsedOk_intro; assumption. }
  split; [|rewrite E; split; reflexivity].
  unfold addLink at 1. cbn zeta. rewrite E. unfold readBack.
  cbn [content critical links]. unfold addLink. cbn zeta. do 3 f_equal.
  destruct (isHeader (join [comma; space] _)) eqn:Eh.
  - apply join_header in Eh.
    assert (Ex : setOf (orNil (links (parseNotes text)) ++ [x]) = [x]).
    { destruct Eh as [Eh|Eh]; rewrite Eh in Hm |- *; simpl in Hm;
        rewrite orb_false_r in Hm; apply streq_spec in Hm; congruence. }
    rewrite Ex. reflexivity.
  - cbn [orNil]. rewrite setOf_snoc_in by assumption. apply dedup_NoDup. assumption.
Qed.

Lemma addLink_idempotent_witness :
  let text := Some (lit "Main task" +nl+ [] +nl+ lit "Related:" +nl+ lit "REF1") in
  let x := lit "REF2" in
  cleanToken x = true
  /\ addLink (Some (addLink text x)) x = addLink text x
  /\ content (parseNotes (Some (addLink text x))) = content (parseNotes text)
  /\ critical (parseNotes (Some (addLink text x))) = critical (parseNotes text).
Proof.
  split; [reflexivity|].
  apply (addLink_idempotent
           (Some (lit "Main task" +nl+ [] +nl+ lit "Related:" +nl+ lit "REF1"))
           (lit "REF2")).
  reflexivity.
Defined.

(** * mergeNotes as an operation *)

Section MergeAlgebra.

Lemma firstSeen_nested (l s s' : list jsstring) :
  firstSeen s (firstSeen s' l) = firstSeen (s ++ s') l.
Proof.
  revert s s'. induction l as [|y r IH]; intros s s'; simpl; auto.
  assert (Hm : mem y (s ++ s') = mem y s || mem y s').
  { unfold mem. apply existsb_app. }
  rewrite Hm. destruct (mem y s') eqn:E'.
  - rewrite orb_true_r. apply IH.
  - rewrite orb_false_r. simpl. destruct (mem y s) eqn:E.
    + rewrite IH. apply firstSeen_ext. intros z. apply mem_In in E.
      rewrite !in_app_iff. simpl. intuition congruence.
    + f_equal. rewrite IH. apply firstSeen_ext. intros z.
      simpl. rewrite !in_app_iff. simpl. tauto.
Qed.

Lemma dedup_app_r (a y : list jsstring) : dedup (a ++ dedup y) = dedup (a ++ y).
Proof.
  unfold dedup. rewrite !firstSeen_app. f_equal.
  rewrite firstSeen_nested, app_nil_r. reflexivity.
Qed.

Lemma dedup_app_l (x c : list jsstring) : dedup (dedup x ++ c) = dedup (x ++ c).
Proof.
  unfold dedup. rewrite !firstSeen_app. f_equal.
  - rewrite (firstSeen_nested x [] []). reflexivity.
  - apply firstSeen_ext. intros z. rewrite !in_app_iff, <- !in_rev.
    fold (dedup x). rewrite dedup_incl. reflexivity.
Qed.

Lemma dedup_nil_iff (l : list jsstring) : dedup l = [] <-> l = [].
Proof. rewrite <- setOf_dedup. apply setOf_nil_iff. Qed.

Lemma mergeNotes_links (e u : NoteComponents) :
  links (mergeNotes e u) = someIfAny (dedup (orNil (links e) ++ orNil (links u))).
Proof.
  unfold mergeNotes. cbn [links]. rewrite setOf_dedup.
  destruct (orNil (links e) ++ orNil (links u)) eqn:E; [reflexivity|].
  unfold someIfAny. destruct (dedup (j :: l)) eqn:E'; [|reflexivity].
  apply dedup_nil_iff in E'. discriminate.
Qed.

Lemma orNil_someIfAny (l : list jsstring) : orNil (someIfAny l) = l.
Proof. destruct l; reflexivity. Qed.

Lemma mergeNotes_content (e u : NoteComponents) :
  content (mergeNotes e u)
  = match content e, content u with
    | Some x, Some y => if truthy x && truthy y then Some (x ++ [nl; nl] ++ y) else Some y
    | Some x, None => Some x
    | None, Some y => Some y
    | None, None => None
    end.
Proof.
  unfold mergeNotes. simpl.
  destruct (content e) as [x|], (content u) as [y|]; simpl; auto.
  rewrite andb_comm. reflexivity.
Qed.

Lemma note_eq (x y : NoteComponents) :
  content x = content y -> critical x = critical y -> links x = links y ->
  x = y.
Proof. destruct x, y. simpl. congruence. Qed.

End MergeAlgebra.

(** X13: merging is associative on the links and on the critical text, and
    on the whole record as soon as the content of the middle record is not
    the empty string. *)
Theorem mergeNotes_assoc (a b c : NoteComponents) :
  links (mergeNotes (mergeNotes a b) c) = links (mergeNotes a (mergeNotes b c))
  /\ critical (mergeNotes (mergeNotes a b) c) = critical (mergeNotes a (mergeNotes b c))
  /\ (content b <> Some [] ->
      mergeNotes (mergeNotes a b) c = mergeNotes a (mergeNotes b c)).
Proof.
  assert (HL : links (mergeNotes (mergeNotes a b) c)
               = links (mergeNotes a (mergeNotes b c))).
  { rewrite !mergeNotes_links, !orNil_someIfAny.
    rewrite dedup_app_l, dedup_app_r, app_assoc. reflexivity. }
  assert (HK : critical (mergeNotes (mergeNotes a b) c)
               = critical (mergeNotes a (mergeNotes b c))).
  { unfold mergeNotes. cbn [critical].
    destruct (critical a), (critical b), (critical c); reflexivity. }
  split; [exact HL|]. split; [exact HK|]. intros Hb.
  assert (HC : content (mergeNotes (mergeNotes a b) c)
               = content (mergeNotes a (mergeNotes b c))).
  { rewrite !mergeNotes_content.
    destruct (content a) as [[|x1 s1]|], (content b) as [[|x2 s2]|],
             (content c) as [[|x3 s3]|];
      try (exfalso; apply Hb; reflexivity); try reflexivity.
    simpl. rewrite <- app_assoc. reflexivity. }
  apply note_eq; assumption.
Qed.

Lemma mergeNotes_assoc_witness :
  let a := mkNote (Some (lit "First")) (Some (lit "Old")) (Some [lit "A"; lit "B"]) in
  let b := mkNote (Some (lit "Second")) None (Some [lit "B"; lit "C"]) in
  let c := mkNote (Some (lit "Third")) (Some (lit "New")) (Some [lit "A"; lit "D"]) in
  content b <> Some []
  /\ mergeNotes (mergeNotes a b) c = mergeNotes a (mergeNotes b c).
Proof.
  split; [discriminate|].
  apply (mergeNotes_assoc
           (mkNote (Some (lit "First")) (Some (lit "Old")) (Some [lit "A"; lit "B"]))
           (mkNote (Some (lit "Second")) None (Some [lit "B"; lit "C"]))
           (mkNote (Some (lit "Third")) (Some (lit "New")) (Some [lit "A"; lit "D"]))).
  discriminate.
Defined.

(** X14: the empty record is neutral for merging on either side, up to the
    links: merging with it keeps the content and the critical text and
    leaves the links without repetition, absent when there are none. A
    record whose links are absent, or not empty and without repetition, is
    returned unchanged. *)
Theorem mergeNotes_empty (e : NoteComponents) :
  mergeNotes e emptyNote
  = mkNote (content e) (critical e) (someIfAny (dedup (orNil (links e))))
  /\ mergeNotes emptyNote e = mergeNotes e emptyNote
  /\ (NoDup (orNil (links e)) -> links e <> Some [] ->
      mergeNotes e emptyNote = e).
Proof.
  assert (E1 : mergeNotes e emptyNote
               = mkNote (content e) (critical e) (someIfAny (dedup (orNil (links e))))).
  { apply note_eq.
    - rewrite mergeNotes_content. cbn [content emptyNote].
      destruct (content e); reflexivity.
    - reflexivity.
    - rewrite mergeNotes_links. cbn [links emptyNote orNil].
      rewrite app_nil_r. reflexivity. }
  assert (E2 : mergeNotes emptyNote e
               = mkNote (content e) (critical e) (someIfAny (dedup (orNil (links e))))).
  { apply note_eq.
    - rewrite mergeNotes_content. cbn [content emptyNote].
      destruct (content e); reflexivity.
    - unfold mergeNotes. cbn [critical emptyNote].
      destruct (critical e); reflexivity.
    - rewrite mergeNotes_links. reflexivity. }
  split; [exact E1|]. split; [congruence|]. intros Hn Hne.
  rewrite E1, dedup_NoDup by assumption.
  destruct e as [co cr [[|t l]|]]; simpl in *; congruence.
Qed.

Lemma mergeNotes_empty_witness :
  let e := mkNote (Some (lit "Content")) (Some (lit "Critical")) (Some [lit "A"; lit "B"]) in
  (NoDup (orNil (links e)) /\ links e <> Some [])
  /\ mergeNotes e emptyNote = e.
Proof.
  assert (Hn : NoDup [lit "A"; lit "B"]).
  { constructor.
    - simpl. intros [H|[]]. discriminate.
    - constructor; [intros []|constructor]. }
  split; [split; [exact Hn|discriminate]|].
  apply (mergeNotes_empty
           (mkNote (Some (lit "Content")) (Some (lit "Critical")) (Some [lit "A"; lit "B"]))).
  - exact Hn.
  - discriminate.
Defined.

(** * errorHandling.ts *)

Import ErrorHandling.

(** X15: a failure that is not a [ValidationError] is reported without its
    message outside development mode: the text is
    ["Failed to <operation>: System error occurred"] and the result is
    flagged as an error, whatever was thrown; the same holds in
    development mode when the thrown value is not an [Error]. A
    [ValidationError] is reported by its own message in every mode. *)
Theorem failure_text (env : Env) (operation : jsstring) (error : Thrown) :
  (instanceOfValidationError error = false ->
   isDev env = false \/ instanceOfError error = false ->
   handleAsyncOperation env (inr error) operation
   = mkResult (lit "Failed to " ++ operation ++ lit ": System error occurred") true)
  /\ (instanceOfValidationError error = true ->
      instanceOfError error = true ->
      handleAsyncOperation env (inr error) operation
      = mkResult (message error) true).
Proof.
  unfold handleAsyncOperation, createErrorMessage. split.
  - intros -> [-> | ->]; [reflexivity|]. destruct (isDev env); reflexivity.
  - intros -> ->. reflexivity.
Qed.

Lemma failure_text_witness :
  let env := mkEnv (Some (lit "production")) None in
  let error := mkThrown true false (lit "ENOENT /Users/me/secret") in
  (instanceOfValidationError error = false /\ isDev env = false)
  /\ handleAsyncOperation env (inr error) (lit "read reminders")
     = mkResult (lit "Failed to read reminders: System error occurred") true.
Proof.
  split; [split; reflexivity|].
  apply (failure_text (mkEnv (Some (lit "production")) None) (lit "read reminders")
                      (mkThrown true false (lit "ENOENT /Users/me/secret"))).
  - reflexivity.
  - left. reflexivity.
Defined.

(** * More on addLink and formatNotes *)

(** X16: after [addLink] with a clean token that is not a header token,
    the note parses to the links of the original in their order without
    repetition, followed by the id when it was not among them: no link is
    lost and the id is present. *)
Theorem addLink_parse_links (text : option jsstring) (x : jsstring) :
  cleanToken x = true -> isHeader x = false ->
  let l := orNil (links (parseNotes text)) in
  links (parseNotes (Some (addLink text x)))
  = Some (dedup l ++ (if mem x l then [] else [x]))
  /\ In x (orNil (links (parseNotes (Some (addLink text x)))))
  /\ (forall y, In y l -> In y (orNil (links (parseNotes (Some (addLink text x)))))).
Proof.
  intros Hx Hh. cbn zeta.
  destruct (added_facts text x Hx) as (Hn & Hm & Hc & Hne).
  destruct (parsedOk_fields _ (parseNotes_parsedOk text)) as (H1 & H2 & _).
  assert (E : links (parseNotes (Some (addLink text x)))
              = Some (setOf (orNil (links (parseNotes text)) ++ [x]))).
  { unfold addLink. cbn zeta. rewrite parse_format_parsedOk.
    - unfold readBack. cbn [content critical links].
      assert (Es : someIfAny (setOf (orNil (links (parseNotes text)) ++ [x]))
                   = Some (setOf (orNil (links (parseNotes text)) ++ [x]))).
      { unfold someIfAny. destruct (setOf _); [congruence|reflexivity]. }
      rewrite Es.
      destruct (isHeader (join [comma; space] _)) eqn:Eh; [|reflexivity].
      exfalso. apply join_header in Eh.
      assert (Ex : isHeader x = true); [|congruence].
      destruct Eh as [Eh|Eh]; rewrite Eh in Hm; simpl in Hm;
        rewrite orb_false_r in Hm; apply streq_spec in Hm; subst x; reflexivity.
    - apply parsedOk_intro; assumption. }
  rewrite E. cbn [orNil]. split; [rewrite setOf_snoc_cases; reflexivity|].
  split.
  - apply mem_In. exact Hm.
  - intros y Hy. rewrite setOf_dedup. apply dedup_incl, in_or_app. auto.
Qed.

Lemma addLink_parse_links_witness :
  let text := Some (lit "Main task" +nl+ [] +nl+ lit "Related:" +nl+ lit "REF1, REF1, REF2") in
  let x := lit "REF3" in
  let l := orNil (links (parseNotes text)) in
  (cleanToken x = true /\ isHeader x = false)
  /\ links (parseNotes (Some (addLink text x)))
     = Some [lit "REF1"; lit "REF2"; lit "REF3"]
  /\ In x (orNil (links (parseNotes (Some (addLink text x)))))
  /\ (forall y, In y l -> In y (orNil (links (parseNotes (Some (addLink text x)))))).
Proof.
  split; [split; reflexivity|].
  apply (addLink_parse_links
           (Some (lit "Main task" +nl+ [] +nl+ lit "Related:" +nl+ lit "REF1, REF1, REF2"))
           (lit "REF3")); reflexivity.
Defined.

(** X17: [formatNotes] is injective on the records that round-trip: two
    such records written as the same string are the same record. *)
Theorem formatNotes_injective (c1 c2 : NoteComponents) :
  roundTrips c1 = true -> roundTrips c2 = true ->
  formatNotes c1 = formatNotes c2 -> c1 = c2.
Proof.
  intros H1 H2 E.
  rewrite <- (roundTrips_parse c1 H1), <- (roundTrips_parse c2 H2), E.
  reflexivity.
Qed.

Lemma formatNotes_injective_witness :
  let c := mkNote (Some (lit "Task details here")) (Some (lit "Must complete today"))
                  (Some [lit "ID1"; lit "ID2"]) in
  roundTrips c = true /\ (formatNotes c = formatNotes c -> c = c).
Proof.
  split; [reflexivity|].
  apply (formatNotes_injective
           (mkNote (Some (lit "Task details here")) (Some (lit "Must complete today"))
                   (Some [lit "ID1"; lit "ID2"]))
           (mkNote (Some (lit "Task details here")) (Some (lit "Must complete today"))
                   (Some [lit "ID1"; lit "ID2"]))); reflexivity.
Defined.

(** X18: what [formatNotes] returns has no white space at either end, for
    every record: trimming it changes nothing, and so does every mutator's
    output. *)
Theorem format_trimmed (c : NoteComponents) (text : option jsstring) (x : jsstring) :
  trim (formatNotes c) = formatNotes c
  /\ trim (addLink text x) = addLink text x
  /\ trim (removeLink text x) = removeLink text x
  /\ trim (setCritical text x) = setCritical text x
  /\ trim (clearCritical text) = clearCritical text.
Proof.
  unfold addLink, removeLink, setCritical, clearCritical, formatNotes.
  repeat split; apply trim_idem.
Qed.
